(** * express-template-mock-server: request pipeline, condition matcher,
      config validator and template engine (src/lib/server-utils.js,
      src/lib/server.js) *)

From Stdlib Require Import ZArith Lia Bool.
From stdpp Require Import base list gmap strings.
From Stdlib Require Import String Ascii.

Open Scope string_scope.
Open Scope Z_scope.

(** ** JavaScript values *)

(** A JavaScript value as the server sees it: configuration documents
    (JSON.parse), parsed request data (query, headers, body, params) and
    the template contexts built from them.  Numbers are restricted to
    integers.  A string is a sequence of UTF-16 code units below 0x100 (one
    [ascii] per code unit, read as Latin-1); characters beyond that range
    are outside the model.  An object is the list of its own enumerable
    properties in own-key order, with unique keys; an array is the list of
    its elements. *)
#[warnings="-register-all"]
Inductive jsv : Type :=
| JUndef
| JNull
| JBool (b : bool)
| JNum (n : Z)
| JStr (s : string)
| JArr (xs : list jsv)
| JObj (fs : list (string * jsv)).

Definition obj := list (string * jsv).

(** Thrown exceptions: [new Error(msg)] and the runtime's TypeError and
    RangeError. *)
Inductive jserr : Type :=
| Error (msg : string)
| TypeError (msg : string)
| RangeError (msg : string).

Definition err_msg (e : jserr) : string :=
  match e with Error m => m | TypeError m => m | RangeError m => m end.

(** A computation that returns normally or throws. *)
Inductive result (A : Type) : Type :=
| Ok (a : A)
| Throw (e : jserr).
Arguments Ok {A} a.
Arguments Throw {A} e.

Definition rbind {A B} (c : result A) (k : A -> result B) : result B :=
  match c with Ok a => k a | Throw e => Throw e end.

Notation "'let!' x ':=' c 'in' k" := (rbind c (fun x => k))
  (at level 200, x name, c at level 100, k at level 200).

(** ** Decimal printing and small string helpers *)

Fixpoint digits_rev (fuel : nat) (n : N) : string :=
  match fuel with
  | O => ""
  | S f =>
      let d := N.modulo n 10 in
      let c := ascii_of_N (48 + d) in
      if (n <? 10)%N then String c "" else String c (digits_rev f (N.div n 10))
  end.

Fixpoint string_rev (s : string) : string :=
  match s with
  | EmptyString => EmptyString
  | String c r => string_rev r ++ String c ""
  end.

(** [String(n)] for a natural number. *)
Definition nat_to_string (n : nat) : string :=
  string_rev (digits_rev (S n) (N.of_nat n)).

(** [String(z)] for an integer number. *)
Definition Z_to_string (z : Z) : string :=
  match z with
  | Zneg p => "-" ++ nat_to_string (Pos.to_nat p)
  | _ => nat_to_string (Z.to_nat z)
  end.

Fixpoint chars (s : string) : list string :=
  match s with
  | EmptyString => []
  | String c r => String c "" :: chars r
  end.

(** The index/value pairs of a list, keys printed as array indices. *)
Fixpoint indexed_from {A} (i : nat) (xs : list A) : list (string * A) :=
  match xs with
  | [] => []
  | x :: r => (nat_to_string i, x) :: indexed_from (S i) r
  end.

(** ** Property access and the Object built-ins *)

Fixpoint assoc {A} (k : string) (l : list (string * A)) : option A :=
  match l with
  | [] => None
  | (k', v) :: r => if String.eqb k k' then Some v else assoc k r
  end.

(** [o[k]] on an object's own properties ([undefined] when absent). *)
Definition obj_get (fs : obj) (k : string) : jsv :=
  match assoc k fs with Some v => v | None => JUndef end.

(** [v[k]]: reading a property of [undefined] or [null] throws. *)
Definition get_prop (v : jsv) (k : string) : result jsv :=
  match v with
  | JUndef | JNull =>
      Throw (TypeError "Cannot read properties of undefined or null")
  | JObj fs => Ok (obj_get fs k)
  | JArr xs =>
      if String.eqb k "length" then Ok (JNum (Z.of_nat (List.length xs)))
      else Ok (match assoc k (indexed_from 0 xs) with
               | Some x => x | None => JUndef end)
  | JStr s =>
      if String.eqb k "length" then Ok (JNum (Z.of_nat (String.length s)))
      else Ok (match assoc k (indexed_from 0 (chars s)) with
               | Some c => JStr c | None => JUndef end)
  | _ => Ok JUndef
  end.

(** [v.k] on a value known to be an object (a validated route): [undefined]
    for anything else. *)
Definition field (v : jsv) (k : string) : jsv :=
  match v with JObj fs => obj_get fs k | _ => JUndef end.

(** [Object.entries(v)]. *)
Definition entries (v : jsv) : result (list (string * jsv)) :=
  match v with
  | JUndef | JNull =>
      Throw (TypeError "Cannot convert undefined or null to object")
  | JObj fs => Ok fs
  | JArr xs => Ok (indexed_from 0 xs)
  | JStr s => Ok (map (fun p => (fst p, JStr (snd p))) (indexed_from 0 (chars s)))
  | _ => Ok []
  end.

(** [Object.keys(v)]. *)
Definition keys (v : jsv) : result (list string) :=
  let! es := entries v in Ok (map fst es).

(** Truthiness ([!v] is [negb (truthy v)]). *)
Definition truthy (v : jsv) : bool :=
  match v with
  | JUndef | JNull => false
  | JBool b => b
  | JNum n => negb (n =? 0)
  | JStr s => negb (String.eqb s "")
  | JArr _ | JObj _ => true
  end.

Definition is_object_type (v : jsv) : bool :=
  match v with JNull | JArr _ | JObj _ => true | _ => false end.

Definition is_array (v : jsv) : bool :=
  match v with JArr _ => true | _ => false end.

Definition is_number (v : jsv) : bool :=
  match v with JNum _ => true | _ => false end.

(** [a === b] between values of separate allocations: every value compared
    by the matcher comes from the configuration document (JSON.parse) on one
    side and from the request parser on the other, so two objects or arrays
    are never the same reference; primitives compare by value. *)
Definition strict_eq (a b : jsv) : bool :=
  match a, b with
  | JUndef, JUndef | JNull, JNull => true
  | JBool x, JBool y => Bool.eqb x y
  | JNum x, JNum y => x =? y
  | JStr x, JStr y => String.eqb x y
  | _, _ => false
  end.

(** [CreateDataProperty(o, k, v)]: object literals and spreads. *)
Fixpoint obj_define (fs : obj) (k : string) (v : jsv) : obj :=
  match fs with
  | [] => [(k, v)]
  | (k', v') :: r =>
      if String.eqb k k' then (k, v) :: r else (k', v') :: obj_define r k v
  end.

(** [o[k] = v] on a plain object: the key [__proto__] hits the inherited
    accessor of Object.prototype and creates no own property. *)
Definition obj_assign (fs : obj) (k : string) (v : jsv) : obj :=
  if String.eqb k "__proto__" then fs else obj_define fs k v.

(** ** Condition matcher (server-utils.js) *)

(** An incoming request as Express hands it to the handlers. *)
Record request := {
  req_method : string;
  req_path : string;
  req_params : jsv;
  req_query : jsv;
  req_headers : jsv;
  req_body : jsv;
  req_startTime : Z
}.

(** [req[field]] for the request properties the matcher can name. *)
Definition req_get (req : request) (k : string) : jsv :=
  if String.eqb k "query" then req_query req
  else if String.eqb k "headers" then req_headers req
  else if String.eqb k "body" then req_body req
  else if String.eqb k "params" then req_params req
  else if String.eqb k "method" then JStr (req_method req)
  else if String.eqb k "path" then JStr (req_path req)
  else JUndef.

(** The loop of [matchValues]: [if (actual[key] !== value) return false]. *)
Fixpoint match_entries (es : list (string * jsv)) (actual : jsv) : result bool :=
  match es with
  | [] => Ok true
  | (k, v) :: r =>
      let! a := get_prop actual k in
      if negb (strict_eq a v) then Ok false else match_entries r actual
  end.

Definition matchValues (expected actual : jsv) : result bool :=
  if negb (truthy actual) then Ok false
  else let! es := entries expected in match_entries es actual.

Fixpoint check_entries (es : list (string * jsv)) (req : request) : result bool :=
  match es with
  | [] => Ok true
  | (field, expectedValues) :: r =>
      let actualValues := req_get req field in
      let! m := matchValues expectedValues actualValues in
      if negb m then Ok false else check_entries r req
  end.

Definition checkConditions (conditions : jsv) (req : request) : result bool :=
  if negb (truthy conditions) then Ok true
  else let! es := entries conditions in check_entries es req.

(** ** Config validator (server-utils.js) *)

(** A double quote character. *)
Definition dq : string := String (ascii_of_nat 34) "".

Definition mem (s : string) (l : list string) : bool := existsb (String.eqb s) l.

Fixpoint join (sep : string) (l : list string) : string :=
  match l with
  | [] => ""
  | [x] => x
  | x :: r => x ++ sep ++ join sep r
  end.

Definition validFields : list string := ["query"; "headers"; "body"].

Definition validCorsFields : list string :=
  ["origin"; "methods"; "allowedHeaders"; "exposedHeaders";
   "credentials"; "maxAge"; "preflightContinue"; "optionsSuccessStatus"].

Definition validateConditions (conditions : jsv) : result unit :=
  let! ks := keys conditions in
  let invalidFields := List.filter (fun f => negb (mem f validFields)) ks in
  if (0 <? List.length invalidFields)%nat
  then Throw (Error ("Invalid condition fields: " ++ join ", " invalidFields))
  else Ok tt.

(** The [for (const route of config.routes)] loop; [||] and [&&]
    short-circuit, so a property is read only when the test needs it. *)
Fixpoint validate_routes (routes : list jsv) : result unit :=
  match routes with
  | [] => Ok tt
  | route :: rest =>
      let! m := get_prop route "method" in
      let! p := (if negb (truthy m) then Ok JUndef else get_prop route "path") in
      if negb (truthy m) || negb (truthy p)
      then Throw (Error "Each route must have a method and path")
      else
        let! resp := get_prop route "response" in
        let! ec := (if truthy resp then Ok JUndef else get_prop route "errorCode") in
        if negb (truthy resp) && negb (truthy ec)
        then Throw (Error "Each route must have either a response or errorCode")
        else
          let! c := get_prop route "conditions" in
          let! _u := (if truthy c then validateConditions c else Ok tt) in
          validate_routes rest
  end.

Definition validate_cors (config : jsv) : result unit :=
  let! g := get_prop config "globals" in
  if negb (truthy g) then Ok tt else
  let! cors := get_prop g "cors" in
  if truthy cors && is_object_type cors then
    let! corsKeys := keys cors in
    let invalidFields := List.filter (fun k => negb (mem k validCorsFields)) corsKeys in
    if (0 <? List.length invalidFields)%nat
    then Throw (Error ("Invalid CORS configuration fields: " ++ join ", " invalidFields))
    else Ok tt
  else Ok tt.

Definition validateConfig (config : jsv) : result unit :=
  if negb (truthy config) then Throw (Error ("Config must have a " ++ dq ++ "routes" ++ dq ++ " array")) else
  let! routes := get_prop config "routes" in
  match routes with
  | JArr rs =>
      let! _u := validate_cors config in
      validate_routes rs
  | _ => Throw (Error ("Config must have a " ++ dq ++ "routes" ++ dq ++ " array"))
  end.

(** ** Template engine: the Handlebars subset the server relies on *)

(** [Handlebars.escapeExpression] on a string. *)
Fixpoint hb_escape (s : string) : string :=
  match s with
  | EmptyString => ""
  | String c r =>
      let e :=
        if Ascii.eqb c "&"%char then "&amp;"
        else if Ascii.eqb c "<"%char then "&lt;"
        else if Ascii.eqb c ">"%char then "&gt;"
        else if Ascii.eqb c (ascii_of_nat 34) then "&quot;"
        else if Ascii.eqb c "'"%char then "&#x27;"
        else if Ascii.eqb c "`"%char then "&#x60;"
        else if Ascii.eqb c "="%char then "&#x3D;"
        else String c "" in
      e ++ hb_escape r
  end.

(** [String(v)] as used by [Array.prototype.join] ([null] and [undefined]
    elements print as the empty string). *)
Fixpoint js_to_string (v : jsv) : string :=
  match v with
  | JUndef => "undefined"
  | JNull => "null"
  | JBool b => if b then "true" else "false"
  | JNum n => Z_to_string n
  | JStr s => s
  | JArr xs =>
      join "," (map (fun x => match x with
                              | JUndef | JNull => ""
                              | _ => js_to_string x end) xs)
  | JObj _ => "[object Object]"
  end.

(** The text a mustache prints for a value: [escapeExpression] returns the
    empty string for [null] and [undefined], [String(v)] otherwise, then
    escapes it. *)
Definition hb_output (v : jsv) : string :=
  match v with
  | JUndef | JNull => ""
  | _ => hb_escape (js_to_string v)
  end.

(** Splitting a mustache body on blanks and a path on dots. *)
Fixpoint split_on (sep : ascii) (s : string) (cur : string) : list string :=
  match s with
  | EmptyString => if String.eqb cur "" then [] else [string_rev cur]
  | String c r =>
      if Ascii.eqb c sep
      then (if String.eqb cur "" then [] else [string_rev cur]) ++ split_on sep r ""
      else split_on sep r (String c cur)
  end.

Definition words (s : string) : list string := split_on " "%char s "".

(** Path lookup of Handlebars: a missing step or a [null]/[undefined]
    parent yields [undefined] (no exception). *)
Fixpoint lookup_path (path : list string) (v : jsv) : jsv :=
  match path with
  | [] => v
  | k :: r =>
      match v with
      | JObj fs => lookup_path r (obj_get fs k)
      | JArr _ | JStr _ =>
          match get_prop v k with Ok x => lookup_path r x | Throw _ => JUndef end
      | _ => JUndef
      end
  end.

(** The helpers registered by server-utils.js. *)
Definition hb_helpers : list string := ["now"; "random"; "uuid"; "responseTime"].

(** The body of [{{ ... }}] up to the closing braces, and what follows. *)
Fixpoint split_close (s : string) : option (string * string) :=
  match s with
  | EmptyString => None
  | String "}"%char (String "}"%char r) => Some ("", r)
  | String c r =>
      match split_close r with
      | Some (i, a) => Some (String c i, a)
      | None => None
      end
  end.

(** [Some body] when [s] starts with the opening braces of a mustache. *)
Definition opens (s : string) : option string :=
  match s with
  | String c1 (String c2 r) =>
      if Ascii.eqb c1 "{"%char && Ascii.eqb c2 "{"%char then Some r else None
  | _ => None
  end.

(** [Some rest] when [s] starts with [p]. *)
Fixpoint strip_prefix (p s : string) : option string :=
  match p, s with
  | EmptyString, _ => Some s
  | String a p', String b s' => if Ascii.eqb a b then strip_prefix p' s' else None
  | _, _ => None
  end.

Definition starts_with (p s : string) : bool :=
  match strip_prefix p s with Some _ => true | None => false end.

(** The backslash character and the NUL character. *)
Definition bslash : ascii := ascii_of_nat 92.
Definition nul : ascii := ascii_of_nat 0.

(** The pieces of a parsed template: a character of content, or a
    mustache with its body. *)
Inductive hb_piece : Type :=
| HText (c : ascii)
| HMustache (inner : string).

(** The lexer state [emu] after an escaped [\{{]: at least two characters
    of content, up to the next [{{], [\{{] or [\\{{] or the end; a NUL
    character matches no rule there. *)
Fixpoint emu_scan (s : string) (n : nat) : option (string * string) :=
  match s with
  | EmptyString => if (2 <=? n)%nat then Some ("", "") else None
  | String c r =>
      if (2 <=? n)%nat && (starts_with "{{" s || starts_with (String bslash "{{") s
                            || starts_with (String bslash (String bslash "{{")) s)
      then Some ("", s)
      else if Ascii.eqb c nul then None
      else match emu_scan r (S n) with
           | Some (a, b) => Some (String c a, b)
           | None => None
           end
  end.

(** [Handlebars.parse]: content runs up to the next [{{]; a mustache runs
    up to the next [}}] and must name something.  Content ending in one
    backslash before [{{] escapes the mustache (the backslash is dropped and
    the text is kept as content); content ending in two backslashes keeps
    one of them and the mustache stays.  A NUL character in content
    matches no rule of the lexer ([Lexical error ... Unrecognized text]);
    an unclosed or empty mustache is a parse error.  The whole template is
    parsed before anything is evaluated. *)
Fixpoint hb_parse (fuel : nat) (t : string) : result (list hb_piece) :=
  match fuel with
  | O => Throw (Error "Parse error")
  | S f =>
      match t with
      | EmptyString => Ok []
      | String c rest =>
          match opens t with
          | Some body =>
              match split_close body with
              | None => Throw (Error "Parse error")
              | Some (inner, after) =>
                  match words inner with
                  | [] => Throw (Error "Parse error")
                  | _ => let! ps := hb_parse f after in Ok (HMustache inner :: ps)
                  end
              end
          | None =>
              if Ascii.eqb c nul then Throw (Error "Lexical error: Unrecognized text")
              else if Ascii.eqb c bslash && starts_with (String bslash "{{") rest then
                match rest with
                | String _ after => let! ps := hb_parse f after in Ok (HText bslash :: ps)
                | EmptyString => Ok []   (* not reached: [rest] starts with a backslash *)
                end
              else if Ascii.eqb c bslash && starts_with "{{" rest then
                match emu_scan rest 0 with
                | None => Throw (Error "Lexical error: Unrecognized text")
                | Some (lit, after) =>
                    let! ps := hb_parse f after in
                    Ok (app (map HText (list_ascii_of_string lit)) ps)
                end
              else let! ps := hb_parse f rest in Ok (HText c :: ps)
          end
      end
  end.

Section Engine.

(** The output of the built-in helpers [now], [random], [uuid] and
    [responseTime] (clock, random generator and UUID source), by helper
    name and argument words. *)
Variable helper : string -> list string -> string.

(** The value [Date.now()] returns during the request. *)
Variable now : Z.

(** One mustache: a registered helper is called first; otherwise a plain
    path is looked up in the context.  A non-helper name with arguments is
    Handlebars' missing-helper error.  Block, partial, comment, raw-block,
    triple-stash and whitespace-control mustaches, literal segments and hash
    arguments are not part of the modelled subset. *)
Definition eval_mustache (inner : string) (ctx : obj) : result string :=
  match words inner with
  | [] => Throw (Error "Parse error")
  | name :: args =>
      if mem name hb_helpers then Ok (hb_escape (helper name args))
      else match args with
           | [] => Ok (hb_output (lookup_path (split_on "."%char name "") (JObj ctx)))
           | _ => Throw (Error ("Missing helper: " ++ dq ++ name ++ dq))
           end
  end.

(** Running the compiled template: the pieces in order, the first
    exception stops it. *)
Fixpoint hb_eval (ps : list hb_piece) (ctx : obj) : result string :=
  match ps with
  | [] => Ok ""
  | HText c :: r => let! s := hb_eval r ctx in Ok (String c s)
  | HMustache inner :: r =>
      let! v := eval_mustache inner ctx in
      let! s := hb_eval r ctx in
      Ok (v ++ s)
  end.

(** [Handlebars.compile(t)(ctx)]. *)
Definition hb_template (t : string) (ctx : obj) : result string :=
  let! ps := hb_parse (S (String.length t)) t in hb_eval ps ctx.

(** ** processTemplate and processJsonTemplate (server-utils.js) *)

(** The [catch] of both functions: [new Error("Template processing error: " + msg)]. *)
Definition tpe (m : string) : jserr := Error ("Template processing error: " ++ m).

(** The per-request context objects are shared, mutable objects: a store
    from locations to their own properties. [data] is a location, or [None]
    for an [undefined] or [null] argument (then [data || {}] is a fresh
    object nobody else sees). *)
Definition processTemplate (template : jsv) (data : option nat) (st : gmap nat obj)
  : result string * gmap nat obj :=
  match template with
  | JStr t =>
      let safeData := match data with Some l => default [] (st !! l) | None => [] end in
      let '(safeData', st') :=
        if is_number (obj_get safeData "startTime") then (safeData, st)
        else
          let d := obj_assign safeData "startTime" (JNum now) in
          (d, match data with Some l => <[l := d]> st | None => st end) in
      match hb_template t safeData' with
      | Ok r =>
          if String.eqb r "" then (Throw (tpe "Template produced empty result"), st')
          else (Ok r, st')
      | Throw e => (Throw (tpe (err_msg e)), st')
      end
  | _ => (Throw (tpe "Template must be a string"), st)
  end.

Definition rethrow_tpe {A} (r : result A * gmap nat obj) : result A * gmap nat obj :=
  match r with
  | (Throw e, s) => (Throw (tpe (err_msg e)), s)
  | ok => ok
  end.

(** [json.map(item => f(item))], threading the store; the first
    exception stops the map. *)
Fixpoint map_st (f : jsv -> gmap nat obj -> result jsv * gmap nat obj)
  (xs : list jsv) (st : gmap nat obj) : result (list jsv) * gmap nat obj :=
  match xs with
  | [] => (Ok [], st)
  | x :: r =>
      match f x st with
      | (Ok v, s1) =>
          match map_st f r s1 with
          | (Ok vs, s2) => (Ok (v :: vs), s2)
          | (Throw e, s2) => (Throw e, s2)
          end
      | (Throw e, s1) => (Throw e, s1)
      end
  end.

(** [for (const [key, value] of Object.entries(json))
    result[key] = f(value)]; the inner [catch] logs and rethrows. *)
Fixpoint assign_entries (f : jsv -> gmap nat obj -> result jsv * gmap nat obj)
  (fs : list (string * jsv)) (result_ : obj) (st : gmap nat obj)
  : result obj * gmap nat obj :=
  match fs with
  | [] => (Ok result_, st)
  | (key, value) :: r =>
      match f value st with
      | (Ok v, s1) => assign_entries f r (obj_assign result_ key v) s1
      | (Throw e, s1) => (Throw e, s1)
      end
  end.

Fixpoint processJsonTemplate (json : jsv) (data : option nat) (st : gmap nat obj)
  : result jsv * gmap nat obj :=
  match json with
  | JStr _ =>
      rethrow_tpe
        (let '(r, s) := processTemplate json data st in
         (let! x := r in Ok (JStr x), s))
  | JArr xs =>
      rethrow_tpe
        (let '(r, s) := map_st (fun x st => processJsonTemplate x data st) xs st in
         (let! vs := r in Ok (JArr vs), s))
  | JObj fs =>
      rethrow_tpe
        (let '(r, s) := assign_entries (fun x st => processJsonTemplate x data st) fs [] st in
         (let! o := r in Ok (JObj o), s))
  | _ => (Ok json, st)
  end.

End Engine.

(** ** Conversions: [ToString] and [ToInt32(ToNumber(v))] *)

(** A decimal digit. *)
Definition is_digit (c : ascii) : bool :=
  (48 <=? nat_of_ascii c)%nat && (nat_of_ascii c <=? 57)%nat.

Fixpoint all_digits (s : string) : bool :=
  match s with
  | EmptyString => true
  | String c r => is_digit c && all_digits r
  end.

(** [ToString] of a JSON value (through [ToPrimitive]): an object with an
    own [toString] property (which JSON data cannot make callable) has no
    usable conversion and throws; an array joins its elements, [null] and
    [undefined] elements printing as the empty string. *)
Fixpoint js_string_of (v : jsv) : result string :=
  match v with
  | JArr xs =>
      let! ss := (fix go (xs : list jsv) : result (list string) :=
                    match xs with
                    | [] => Ok []
                    | x :: r =>
                        let! s := match x with
                                  | JUndef | JNull => Ok ""
                                  | _ => js_string_of x
                                  end in
                        let! ss := go r in
                        Ok (s :: ss)
                    end) xs in
      Ok (join "," ss)
  | JObj fs =>
      match assoc "toString" fs with
      | Some _ => Throw (TypeError "Cannot convert object to primitive value")
      | None => Ok "[object Object]"
      end
  | _ => Ok (js_to_string v)
  end.

(** [ToInt32] of an integer: the value modulo 2^32, read as signed. *)
Definition int32_wrap (z : Z) : Z :=
  let m := z mod 2 ^ 32 in if 2 ^ 31 <=? m then m - 2 ^ 32 else m.

(** JavaScript white space within Latin-1 ([\s] of a regular expression,
    and what [StringToNumber] trims): tab, LF, VT, FF, CR, space and
    no-break space. *)
Definition js_space (c : ascii) : bool :=
  let n := nat_of_ascii c in
  (9 <=? n)%nat && (n <=? 13)%nat || (n =? 32)%nat || (n =? 160)%nat.

Fixpoint trim_start (s : string) : string :=
  match s with
  | EmptyString => EmptyString
  | String c r => if js_space c then trim_start r else s
  end.

Definition js_trim (s : string) : string := string_rev (trim_start (string_rev (trim_start s))).

(** The value of a digit in base [b] (2, 8, 10 or 16). *)
Definition digit_value (b : Z) (c : ascii) : option Z :=
  let n := Z.of_nat (nat_of_ascii c) in
  let d := if (48 <=? n) && (n <=? 57) then Some (n - 48)
           else if (97 <=? n) && (n <=? 102) then Some (n - 87)
           else if (65 <=? n) && (n <=? 70) then Some (n - 55)
           else None in
  match d with Some v => if v <? b then Some v else None | None => None end.

(** The number a string of base-[b] digits denotes, [None] unless every
    character is such a digit. *)
Fixpoint digits_value (b : Z) (s : string) (acc : Z) : option Z :=
  match s with
  | EmptyString => Some acc
  | String c r =>
      match digit_value b c with
      | Some d => digits_value b r (acc * b + d)
      | None => None
      end
  end.

(** The longest prefix of decimal digits, and the rest. *)
Fixpoint span_digits (s : string) : string * string :=
  match s with
  | EmptyString => ("", "")
  | String c r =>
      if is_digit c then let '(d, rest) := span_digits r in (String c d, rest) else ("", s)
  end.

Fixpoint drop_zeros (s : string) : string :=
  match s with
  | String "0"%char r => drop_zeros r
  | _ => s
  end.

(** The mathematical value of a numeric string: NaN, an infinity (whose
    sign [ToInt32] ignores), or [(-1)^neg * p / q] with [p >= 0], [q > 0]. *)
Inductive jsnum : Type :=
| NumNaN
| NumInf
| NumRat (neg : bool) (p q : Z).

(** The digits of an [ExponentPart] after its [e]: a signed decimal
    integer and nothing else. *)
Definition parse_exponent (s : string) : option Z :=
  let '(neg, ds) := match s with
                    | String "+"%char r => (false, r)
                    | String "-"%char r => (true, r)
                    | _ => (false, s)
                    end in
  if String.eqb ds "" then None
  else match digits_value 10 ds 0 with
       | Some x => Some (if neg then - x else x)
       | None => None
       end.

(** [StrUnsignedDecimalLiteral]: [Infinity], or digits with an optional
    fraction and exponent and at least one digit.  A value of 10^400 or more
    is an infinity and one below 10^-400 is zero for every later use (the
    largest double is below 2^1024). *)
Definition parse_unsigned (s : string) : jsnum :=
  if String.eqb s "Infinity" then NumInf else
  let '(int, r1) := span_digits s in
  let '(frac, r2) := match r1 with
                     | String "."%char r => span_digits r
                     | _ => ("", r1)
                     end in
  if String.eqb int "" && String.eqb frac "" then NumNaN else
  let ex := match r2 with
            | EmptyString => Some 0
            | String c r =>
                if Ascii.eqb c "e"%char || Ascii.eqb c "E"%char then parse_exponent r else None
            end in
  match ex, digits_value 10 (int ++ frac) 0 with
  | Some x, Some d =>
      let k := x - Z.of_nat (String.length frac) in
      let mag := Z.of_nat (String.length (drop_zeros (int ++ frac))) + k in
      if d =? 0 then NumRat false 0 1
      else if 400 <? mag then NumInf
      else if mag <? -400 then NumRat false 0 1
      else if 0 <=? k then NumRat false (d * 10 ^ k) 1
      else NumRat false d (10 ^ (- k))
  | _, _ => NumNaN
  end.

Definition parse_radix (b : Z) (s : string) : jsnum :=
  if String.eqb s "" then NumNaN
  else match digits_value b s 0 with Some v => NumRat false v 1 | None => NumNaN end.

(** [StringToNumber]: white space trimmed, the empty string is 0, [0x],
    [0o] and [0b] literals take no sign, anything else unparsable is NaN. *)
Definition string_to_number (s : string) : jsnum :=
  let t := js_trim s in
  match t with
  | EmptyString => NumRat false 0 1
  | String "0"%char (String x r) =>
      if Ascii.eqb x "x"%char || Ascii.eqb x "X"%char then parse_radix 16 r
      else if Ascii.eqb x "o"%char || Ascii.eqb x "O"%char then parse_radix 8 r
      else if Ascii.eqb x "b"%char || Ascii.eqb x "B"%char then parse_radix 2 r
      else parse_unsigned t
  | String "+"%char r => parse_unsigned r
  | String "-"%char r =>
      match parse_unsigned r with
      | NumRat _ p q => NumRat true p q
      | n => n
      end
  | _ => parse_unsigned t
  end.

(** [ToInt32] of the double nearest to [(-1)^neg * p / q] (ties to even):
    its integer part modulo 2^32; an infinity gives 0.  Below 1/2 the double
    is below 1. *)
Definition rat_to_int32 (neg : bool) (p q : Z) : Z :=
  if 2 * p <? q then 0 else
  let l := Z.log2 p - Z.log2 q in
  let ge := if 0 <=? l then q * 2 ^ l <=? p else q <=? p * 2 ^ (- l) in
  let e := if ge then l else l - 1 in
  let s := 52 - e in
  let num := if 0 <=? s then p * 2 ^ s else p in
  let den := if 0 <=? s then q else q * 2 ^ (- s) in
  let m0 := num / den in
  let rem := num mod den in
  let m := if (den <? 2 * rem) || ((2 * rem =? den) && Z.odd m0) then m0 + 1 else m0 in
  if 1024 <=? Z.log2 m - s then 0
  else
    let t := if 0 <=? s then m / 2 ^ s else m * 2 ^ (- s) in
    int32_wrap (if neg then - t else t).

Definition num_to_int32 (n : jsnum) : Z :=
  match n with NumRat neg p q => rat_to_int32 neg p q | _ => 0 end.

(** [ToInt32(ToNumber(v))], the conversion [statusCode |= 0] performs. *)
Definition js_to_int32 (v : jsv) : result Z :=
  match v with
  | JUndef | JNull => Ok 0
  | JBool b => Ok (if b then 1 else 0)
  | JNum n => Ok (int32_wrap n)
  | JStr s => Ok (num_to_int32 (string_to_number s))
  | JArr _ | JObj _ => let! s := js_string_of v in Ok (num_to_int32 (string_to_number s))
  end.

(** [writeHead]'s test on the converted status code. *)
Definition valid_status (n : Z) : bool := (100 <=? n) && (n <=? 999).

(** ** Responses *)

(** The parts of an Express response the handlers touch: [statusCode] as
    assigned (by [res.status] or directly), the headers stored through
    [setHeader] in order, and the value handed to [res.json] ([None] while
    nothing is sent, and after [res.end()] without a body).  What [res.json],
    [res.send] and [res.end] add on their own (the Content-Type,
    Content-Length and ETag framing headers, a 304 for a fresh conditional
    GET, no body for HEAD, 204 and 304) is not modelled. *)
Record response := {
  res_status : jsv;
  res_headers : list (string * string);
  res_body : option jsv
}.


(** [res] as Express's init middleware hands it on: status 200 and
    [X-Powered-By: Express]. *)
Definition res_start : response :=
  {| res_status := JNum 200; res_headers := [("X-Powered-By", "Express")]; res_body := None |}.

(** [toLowerCase] on one Latin-1 character: A-Z and the capitals
    0xC0-0xDE except 0xD7. *)
Definition lower_ascii (c : ascii) : ascii :=
  let n := nat_of_ascii c in
  if (65 <=? n)%nat && (n <=? 90)%nat
     || (192 <=? n)%nat && (n <=? 222)%nat && negb (n =? 215)%nat
  then ascii_of_nat (n + 32) else c.

Fixpoint lower (s : string) : string :=
  match s with
  | EmptyString => EmptyString
  | String c r => String (lower_ascii c) (lower r)
  end.

(** The header store of [res]: names compare case-insensitively; a new
    value replaces the old one in place. *)
Fixpoint set_header (hs : list (string * string)) (name v : string)
  : list (string * string) :=
  match hs with
  | [] => [(name, v)]
  | (n, w) :: r =>
      if String.eqb (lower n) (lower name) then (name, v) :: r
      else (n, w) :: set_header r name v
  end.

(** [res.getHeader(name)]. *)
Fixpoint get_header (hs : list (string * string)) (name : string) : option string :=
  match hs with
  | [] => None
  | (n, w) :: r => if String.eqb (lower n) (lower name) then Some w else get_header r name
  end.

Fixpoint all_chars (p : ascii -> bool) (s : string) : bool :=
  match s with
  | EmptyString => true
  | String c r => p c && all_chars p r
  end.

(** Node's [checkIsHttpToken]: the characters of an HTTP token. *)
Definition token_char (c : ascii) : bool :=
  let n := nat_of_ascii c in
  (48 <=? n)%nat && (n <=? 57)%nat || (65 <=? n)%nat && (n <=? 90)%nat
  || (97 <=? n)%nat && (n <=? 122)%nat
  || mem (String c "") ["!"; "#"; "$"; "%"; "&"; "'"; "*"; "+"; "-"; "."; "^"; "_"; "`"; "|"; "~"].

Definition valid_header_name (name : string) : bool :=
  negb (String.eqb name "") && all_chars token_char name.

(** Node's [checkInvalidHeaderChar] passes tab, 0x20-0x7E and 0x80-0xFF. *)
Definition header_char (c : ascii) : bool :=
  let n := nat_of_ascii c in
  (n =? 9)%nat || (32 <=? n)%nat && (n <=? 126)%nat || (128 <=? n)%nat.

Definition valid_header_value (v : string) : bool := all_chars header_char v.

(** [res] with the header [name] stored as [v]. *)
Definition with_header (res : response) (name v : string) : response :=
  {| res_status := res_status res; res_headers := set_header (res_headers res) name v;
     res_body := res_body res |}.

(** [res.setHeader(name, value)] with a string value: the name must be a
    token ([ERR_INVALID_HTTP_TOKEN]) and the value must have no other control
    character ([ERR_INVALID_CHAR]), both TypeErrors; then the header is
    stored. *)
Definition res_setHeader (res : response) (name v : string) : result response :=
  if negb (valid_header_name name) then
    Throw (TypeError ("Header name must be a valid HTTP token [" ++ dq ++ name ++ dq ++ "]"))
  else if negb (valid_header_value v) then
    Throw (TypeError ("Invalid character in header content [" ++ dq ++ name ++ dq ++ "]"))
  else Ok (with_header res name v).

(** [res.setHeader(name, value)] with any value: the name is checked
    first, then the value through its [String] conversion. *)
Definition res_setHeader_jsv (res : response) (name : string) (v : jsv) : result response :=
  if negb (valid_header_name name) then
    Throw (TypeError ("Header name must be a valid HTTP token [" ++ dq ++ name ++ dq ++ "]"))
  else let! s := js_string_of v in res_setHeader res name s.

(** [/;\s*charset\s*=/.test(value)]. *)
Fixpoint has_charset_param (s : string) : bool :=
  match s with
  | EmptyString => false
  | String c r =>
      (Ascii.eqb c ";"%char
       && match strip_prefix "charset" (trim_start r) with
          | Some rest => match trim_start rest with String "="%char _ => true | _ => false end
          | None => false
          end)
      || has_charset_param r
  end.

(** [value.split(';')[0]]. *)
Fixpoint before_semicolon (s : string) : string :=
  match s with
  | EmptyString => ""
  | String c r => if Ascii.eqb c ";"%char then "" else String c (before_semicolon r)
  end.

(** [mime.charsets.lookup(type)] of mime 1.x: UTF-8 for
    [/^text\/|^application\/(javascript|json)/], nothing otherwise. *)
Definition utf8_type (t : string) : bool :=
  starts_with "text/" t || starts_with "application/javascript" t
  || starts_with "application/json" t.

(** The value [res.set(field, value)] of Express 4 hands to [setHeader] for
    a string value: a Content-Type without a charset parameter gets
    [; charset=utf-8] when its type has that charset. *)
Definition express_header_value (field value : string) : string :=
  if String.eqb (lower field) "content-type" && negb (has_charset_param value)
     && utf8_type (before_semicolon value)
  then value ++ "; charset=utf-8" else value.

(** [res.set(field, value)]. *)
Definition res_set (res : response) (field value : string) : result response :=
  res_setHeader res field (express_header_value field value).

(** [res.status(code)]. *)
Definition res_status_set (res : response) (code : jsv) : response :=
  {| res_status := code; res_headers := res_headers res; res_body := res_body res |}.

(** [res.json(v)]. *)
Definition res_json (res : response) (v : jsv) : response :=
  {| res_status := res_status res; res_headers := res_headers res; res_body := Some v |}.

Definition error_body (m : string) : jsv := JObj [("error", JStr m)].

(** What a middleware does with a request: pass it on ([next()]), answer
    it, or throw (Express then hands the error to the error-handling
    middleware); [res] is the response object as the middleware left it. *)
Inductive mw_outcome : Type :=
| MNext (res : response)
| MEnd (res : response)
| MFail (res : response) (e : jserr).

(** The error-handling middleware of setupErrorHandlingMiddleware for an
    error whose name is neither [ValidationError] nor [TemplateError] (no
    error reaching it has such a name): [res.status(500).json(...)]. *)
Definition internal_error (res : response) : response :=
  res_json (res_status_set res (JNum 500)) (error_body "Internal server error").

(** What a request handler did on its way to the response. *)
Inductive event : Type :=
| EvGlobalHeader (name : string)   (* a global header was processed *)
| EvConditions                     (* checkConditions ran *)
| EvHeader (name : string)         (* a route header was processed *)
| EvDelay (d : jsv)                (* the route delay was awaited *)
| EvRender.                        (* the response template was rendered *)

(** [{...a}]: own enumerable properties, array indices, string characters. *)
Definition spread (acc : obj) (v : jsv) : obj :=
  match v with
  | JObj fs => fold_left (fun a kv => obj_define a (fst kv) (snd kv)) fs acc
  | JArr xs => fold_left (fun a kv => obj_define a (fst kv) (snd kv)) (indexed_from 0 xs) acc
  | JStr s =>
      fold_left (fun a kv => obj_define a (fst kv) (JStr (snd kv))) (indexed_from 0 (chars s)) acc
  | _ => acc
  end.

(** ** Route handler (setupRoutes, server.js) *)

Section Dispatcher.

Variable helper : string -> list string -> string.
Variable now : Z.

(** [{...req.params, ...req.query, ...req.body, startTime: req.startTime,
    responseTime: Date.now() - req.startTime}]. *)
Definition templateData (req : request) : obj :=
  let d := spread (spread (spread [] (req_params req)) (req_query req)) (req_body req) in
  obj_define (obj_define d "startTime" (JNum (req_startTime req)))
    "responseTime" (JNum (now - req_startTime req)).

(** A fresh object literal, alone in its store at location 0. *)
Definition fresh (d : obj) : gmap nat obj := {[ 0%nat := d ]}.

(** The loop over [Object.entries(route.headers)]: each header gets its own
    [headerTemplateData]; when rendering it ([processHeaderValue]) or
    setting it ([res.set]) throws, the error is logged and counted and the
    loop goes on. *)
Fixpoint route_headers (hs : list (string * jsv)) (req : request) (res : response)
  (errs : nat) (ev : list event) : response * nat * list event :=
  match hs with
  | [] => (res, errs, ev)
  | (header, value) :: r =>
      let headerTemplateData := templateData req in
      match (let! s := fst (processTemplate helper now value (Some 0%nat)
                              (fresh headerTemplateData)) in
             res_set res header s) with
      | Ok res' => route_headers r req res' errs (app ev [EvHeader header])
      | Throw _ => route_headers r req res (S errs) (app ev [EvHeader header])
      end
  end.

(** The route-specific header block: the loop, then [X-Header-Warning]
    when some header failed. *)
Definition apply_route_headers (route : jsv) (req : request) (res : response)
  (ev : list event) : mw_outcome * list event :=
  let headers := field route "headers" in
  if truthy headers then
    match entries headers with
    | Throw e => (MFail res e, ev)
    | Ok hs =>
        let '(res', errs, ev') := route_headers hs req res 0 ev in
        if (0 <? errs)%nat then
          match res_set res' "X-Header-Warning"
                  ("Failed to process " ++ nat_to_string errs ++ " headers") with
          | Ok res'' => (MNext res'', ev')
          | Throw e => (MFail res' e, ev')
          end
        else (MNext res', ev')
    end
  else (MNext res, ev).

(** The async handler registered for [route]; [res] is the response object
    as the middleware left it.  Every exception of its body lands in the
    outer [catch]: [res.status(500).json({error: ...})]. *)
Definition handle_route (route : jsv) (req : request) (res : response)
  : response * list event :=
  let conditions := field route "conditions" in
  let ev0 := if truthy conditions then [EvConditions] else [] in
  let cond := if truthy conditions then checkConditions conditions req else Ok true in
  match cond with
  | Throw _ => (internal_error res, ev0)
  | Ok false =>
      let fallback := field route "fallback" in
      if truthy fallback then (res_json res fallback, ev0)
      else (res_json (res_status_set res (JNum 400)) (error_body "Conditions not met"), ev0)
  | Ok true =>
      match apply_route_headers route req res ev0 with
      | (MFail res1 _, ev1) => (internal_error res1, ev1)
      | (MEnd res1, ev1) => (res1, ev1)
      | (MNext res1, ev1) =>
          let errorCode := field route "errorCode" in
          if truthy errorCode then
            let errorMessage := field route "errorMessage" in
            let body := JObj [("error", if truthy errorMessage then errorMessage
                                        else JStr "Internal server error")] in
            (* [res.status(errorCode).json(body)]: sending converts the code
               with [ToInt32(ToNumber(...))] ([writeHead]), which throws a
               TypeError for an object with an own [toString] and a
               RangeError outside [100, 999]; the [catch] answers 500 *)
            match js_to_int32 errorCode with
            | Ok n =>
                if valid_status n then (res_json (res_status_set res1 errorCode) body, ev1)
                else (internal_error res1, ev1)
            | Throw _ => (internal_error res1, ev1)
            end
          else
            let delay := field route "delay" in
            let ev2 := if truthy delay then app ev1 [EvDelay delay] else ev1 in
            let data := templateData req in
            match fst (processJsonTemplate helper now (field route "response")
                         (Some 0%nat) (fresh data)) with
            | Ok response => (res_json res1 response, app ev2 [EvRender])
            | Throw _ => (internal_error res1, app ev2 [EvRender])
            end
      end
  end.

End Dispatcher.

(** ** The cors middleware (cors 2.8.5) *)

(** [corsOptions = assign({}, defaults, options)] read at [k]: an own
    option, else the default ([origin: '*'], the six methods,
    [preflightContinue: false], [optionsSuccessStatus: 204]), else what an
    own [__proto__] option made the prototype ([Object.assign] sets the
    prototype of the copy through that key). *)
Definition cors_get (options : jsv) (k : string) : jsv :=
  let own := match options with JObj fs => assoc k fs | _ => None end in
  match own with
  | Some v => v
  | None =>
      if String.eqb k "origin" then JStr "*"
      else if String.eqb k "methods" then JStr "GET,HEAD,PUT,PATCH,POST,DELETE"
      else if String.eqb k "preflightContinue" then JBool false
      else if String.eqb k "optionsSuccessStatus" then JNum 204
      else match options with
           | JObj fs =>
               match assoc "__proto__" fs with
               | Some (JObj ps) => obj_get ps k
               | _ => JUndef
               end
           | _ => JUndef
           end
  end.

(** [isOriginAllowed(origin, allowedOrigin)]. *)
Fixpoint isOriginAllowed (origin allowed : jsv) : bool :=
  match allowed with
  | JArr xs => existsb (fun a => isOriginAllowed origin a) xs
  | JStr s => strict_eq origin (JStr s)
  | _ => truthy allowed
  end.

(** An entry of the header list the middleware builds: a header to set
    when its value is truthy, or a field to add to [Vary]. *)
Inductive cors_header : Type :=
| CSet (key : string) (value : jsv)
| CVary (field : string).

Definition configureOrigin (options : jsv) (req : request) : list cors_header :=
  let requestOrigin := field (req_headers req) "origin" in
  let o := cors_get options "origin" in
  if negb (truthy o) || strict_eq o (JStr "*") then
    [CSet "Access-Control-Allow-Origin" (JStr "*")]
  else match o with
       | JStr s => [CSet "Access-Control-Allow-Origin" (JStr s); CVary "Origin"]
       | _ =>
           [CSet "Access-Control-Allow-Origin"
              (if isOriginAllowed requestOrigin o then requestOrigin else JBool false);
            CVary "Origin"]
       end.

Definition configureCredentials (options : jsv) : list cors_header :=
  if strict_eq (cors_get options "credentials") (JBool true)
  then [CSet "Access-Control-Allow-Credentials" (JStr "true")] else [].

(** [v.join ? v.join(',') : v]: reading [join] of [null] or [undefined]
    throws, and so does calling an own [join] property (not a function in
    JSON data). *)
Definition join_if_array (v : jsv) : result jsv :=
  match v with
  | JUndef | JNull => Throw (TypeError "Cannot read properties of null (reading 'join')")
  | JArr _ => let! s := js_string_of v in Ok (JStr s)
  | JObj fs =>
      if truthy (obj_get fs "join") then Throw (TypeError "join is not a function") else Ok v
  | _ => Ok v
  end.

(** [v && v.length]. *)
Definition has_length (v : jsv) : bool :=
  truthy v && match get_prop v "length" with Ok l => truthy l | Throw _ => false end.

Definition configureMethods (options : jsv) : result (list cors_header) :=
  let! m := join_if_array (cors_get options "methods") in
  Ok [CSet "Access-Control-Allow-Methods" m].

Definition configureAllowedHeaders (options : jsv) (req : request)
  : result (list cors_header) :=
  let a := cors_get options "allowedHeaders" in
  let allowedHeaders := if truthy a then a else cors_get options "headers" in
  let! vh := (if negb (truthy allowedHeaders)
              then Ok (field (req_headers req) "access-control-request-headers",
                       [CVary "Access-Control-Request-Headers"])
              else let! j := join_if_array allowedHeaders in Ok (j, [])) in
  let '(v, vary_entry) := vh in
  Ok (app vary_entry (if has_length v then [CSet "Access-Control-Allow-Headers" v] else [])).

(** [(typeof maxAge === 'number' || maxAge) && maxAge.toString()]. *)
Definition configureMaxAge (options : jsv) : result (list cors_header) :=
  let m := cors_get options "maxAge" in
  let! v := (if is_number m || truthy m then let! s := js_string_of m in Ok (JStr s) else Ok m) in
  Ok (if has_length v then [CSet "Access-Control-Max-Age" v] else []).

Definition configureExposedHeaders (options : jsv) : result (list cors_header) :=
  let h := cors_get options "exposedHeaders" in
  if negb (truthy h) then Ok [] else
  let! v := join_if_array h in
  Ok (if has_length v then [CSet "Access-Control-Expose-Headers" v] else []).

(** [parse] of the vary package: the comma-separated fields, blanks around
    each dropped. *)
Fixpoint split_commas (s : string) (cur : string) : list string :=
  match s with
  | EmptyString => [string_rev cur]
  | String c r =>
      if Ascii.eqb c ","%char then string_rev cur :: split_commas r ""
      else split_commas r (String c cur)
  end.

Fixpoint drop_spaces (s : string) : string :=
  match s with
  | String " "%char r => drop_spaces r
  | _ => s
  end.

Definition vary_parse (s : string) : list string :=
  map (fun f => string_rev (drop_spaces (string_rev (drop_spaces f)))) (split_commas s "").

(** [append(header, field)] of the vary package. *)
Definition vary_append (header field : string) : result string :=
  let fields := vary_parse field in
  if negb (forallb valid_header_name fields) then
    Throw (TypeError "field argument contains an invalid header name")
  else if String.eqb header "*" then Ok header
  else
    let vals := vary_parse (lower header) in
    if mem "*" fields || mem "*" vals then Ok "*"
    else Ok (fst (fold_left
                    (fun acc f =>
                       let '(val, vs) := acc in
                       let fld := lower f in
                       if mem fld vs then (val, vs)
                       else ((if String.eqb val "" then f else val ++ ", " ++ f), app vs [fld]))
                    fields (header, vals))).

(** [vary(res, field)]. *)
Definition vary (res : response) (field : string) : result response :=
  let header := match get_header (res_headers res) "Vary" with Some v => v | None => "" end in
  let! v := vary_append header field in
  if String.eqb v "" then Ok res else res_setHeader res "Vary" v.

(** [applyHeaders(headers, res)]. *)
Fixpoint apply_headers (hs : list cors_header) (res : response) : mw_outcome :=
  match hs with
  | [] => MNext res
  | CVary f :: r =>
      match vary res f with
      | Ok res' => apply_headers r res'
      | Throw e => MFail res e
      end
  | CSet k v :: r =>
      if truthy v then
        match res_setHeader_jsv res k v with
        | Ok res' => apply_headers r res'
        | Throw e => MFail res e
        end
      else apply_headers r res
  end.

(** [cors(options, req, res, next)] (Node's parser gives the method in
    capitals).  A preflight builds its whole header list first, then sets
    it; unless [preflightContinue], it ends the response with
    [optionsSuccessStatus] ([res.setHeader('Content-Length', '0')] is a
    framing header, not recorded), and [writeHead] rejects a code whose
    [ToInt32] is outside [100, 999]. *)
Definition cors_run (options : jsv) (req : request) (res : response) : mw_outcome :=
  if String.eqb (req_method req) "OPTIONS" then
    match (let! m := configureMethods options in
           let! a := configureAllowedHeaders options req in
           let! x := configureMaxAge options in
           let! e := configureExposedHeaders options in
           Ok (app (configureOrigin options req)
                 (app (configureCredentials options) (app m (app a (app x e)))))) with
    | Throw e => MFail res e
    | Ok hs =>
        match apply_headers hs res with
        | MNext res1 =>
            if truthy (cors_get options "preflightContinue") then MNext res1
            else
              let code := cors_get options "optionsSuccessStatus" in
              let res2 := res_status_set res1 code in
              match js_to_int32 code with
              | Ok n => if valid_status n then MEnd res2
                        else MFail res2 (RangeError "Invalid status code")
              | Throw e => MFail res2 e
              end
        | out => out
        end
    end
  else
    match configureExposedHeaders options with
    | Throw e => MFail res e
    | Ok e => apply_headers (app (configureOrigin options req) (app (configureCredentials options) e)) res
    end.

(** The middleware [cors(options)] returns: with a falsy [origin] option it
    calls [next()] and does nothing else. *)
Definition cors_mw (options : jsv) (req : request) (res : response) : mw_outcome :=
  if truthy (cors_get options "origin") then cors_run options req res else MNext res.

(** ** The application (createMockServer, setupMiddleware, setupRoutes) *)

(** The server state flag the middleware reads. *)
Record server_state := { isShuttingDown : bool }.

(** Options handed to the [cors] middleware by setupCorsMiddleware, or
    [None] when [globals.cors] is [false] and no CORS middleware is
    installed. *)
Definition cors_options (config : jsv) : option jsv :=
  let g := field config "globals" in
  if truthy g && negb (strict_eq (field g "cors") JUndef) then
    let c := field g "cors" in
    if strict_eq c (JBool false) then None
    else Some (if is_object_type c then c else JObj [])
  else Some (JObj []).

(** The method test of Express's router for a route registered with
    [app[method.toLowerCase()]] for an HTTP method name or [all]: [get]
    also serves [HEAD]. *)
Definition method_matches (route_method req_method : string) : bool :=
  let m := lower route_method in
  let r := lower req_method in
  String.eqb m "all" || String.eqb m r || (String.eqb m "get" && String.eqb r "head").

Section App.

Variable helper : string -> list string -> string.
Variable now : Z.

(** Express's path matching of a route layer (path-to-regexp 0.1, case
    insensitive, non-strict, whole path): the decoded parameters when
    [req.path] matches the route's path, nothing when it does not, or the
    error [decodeURIComponent] throws on a captured parameter. *)
Variable path_match : jsv -> string -> result (option obj).

(** finalhandler: the response Express sends for an error no
    error-handling middleware takes (the one of setupMiddleware is
    registered before the routes). *)
Variable final_handler : jserr -> response -> response.

(** setupCorsMiddleware: [app.use(cors(o))], then [app.options('*', cors(o))],
    whose route layer matches every path (decoding it) and runs [cors]
    again for an [OPTIONS] request. *)
Definition cors_stage (config : jsv) (req : request) (res : response) : mw_outcome :=
  match cors_options config with
  | None => MNext res
  | Some o =>
      match cors_mw o req res with
      | MNext res1 =>
          match path_match (JStr "*") (req_path req) with
          | Throw e => MFail res1 e
          | Ok None => MNext res1
          | Ok (Some _) =>
              if String.eqb (req_method req) "OPTIONS" then cors_mw o req res1 else MNext res1
          end
      | out => out
      end
  end.

(** setupGlobalHeadersMiddleware: each global header rendered against
    [{startTime, responseTime}] and set; failures are counted, never
    fatal. *)
Fixpoint global_headers_loop (hs : list (string * jsv)) (req : request) (res : response)
  (errs : nat) (ev : list event) : response * nat * list event :=
  match hs with
  | [] => (res, errs, ev)
  | (header, value) :: r =>
      let headerData := [("startTime", JNum (req_startTime req));
                         ("responseTime", JNum (now - req_startTime req))] in
      match (let! s := fst (processTemplate helper now value (Some 0%nat) (fresh headerData)) in
             res_set res header s) with
      | Ok res' => global_headers_loop r req res' errs (app ev [EvGlobalHeader header])
      | Throw _ => global_headers_loop r req res (S errs) (app ev [EvGlobalHeader header])
      end
  end.

Definition global_headers (config : jsv) (req : request) (res : response)
  : mw_outcome * list event :=
  let g := field config "globals" in
  if truthy g && truthy (field g "headers") then
    match entries (field g "headers") with
    | Throw e => (MFail res e, [])
    | Ok hs =>
        let '(res', errs, ev) := global_headers_loop hs req res 0 [] in
        if (0 <? errs)%nat then
          match res_set res' "X-Header-Warning"
                  ("Failed to process " ++ nat_to_string errs ++ " headers") with
          | Ok res'' => (MNext res'', ev)
          | Throw e => (MFail res' e, ev)
          end
        else (MNext res', ev)
    end
  else (MNext res, []).

(** setupSecurityHeadersMiddleware. *)
Definition security_headers (res : response) : mw_outcome :=
  match res_set res "X-Content-Type-Options" "nosniff" with
  | Throw e => MFail res e
  | Ok res1 =>
      match res_set res1 "X-Frame-Options" "DENY" with
      | Throw e => MFail res1 e
      | Ok res2 =>
          match res_set res2 "X-Powered-By" "Express Template Mock Server" with
          | Throw e => MFail res2 e
          | Ok res3 => MNext res3
          end
      end
  end.

(** The route layers in registration order, then the 404 handler.  A layer
    matches the path first, then the method; an error from the path
    matching skips every later route layer and the 404 handler and reaches
    finalhandler. *)
Fixpoint dispatch (routes : list jsv) (req : request) (res : response)
  (ev : list event) : response * list event :=
  match routes with
  | [] => (res_json (res_status_set res (JNum 404)) (error_body "Not Found"), ev)
  | route :: rest =>
      match path_match (field route "path") (req_path req) with
      | Throw e => (final_handler e res, ev)
      | Ok None => dispatch rest req res ev
      | Ok (Some params) =>
          match field route "method" with
          | JStr m =>
              if method_matches m (req_method req) then
                let req' := {| req_method := req_method req; req_path := req_path req;
                               req_params := JObj params; req_query := req_query req;
                               req_headers := req_headers req; req_body := req_body req;
                               req_startTime := req_startTime req |} in
                let '(res', ev') := handle_route helper now route req' res in
                (res', app ev ev')
              else dispatch rest req res ev
          | _ => dispatch rest req res ev
          end
      end
  end.

Definition config_routes (config : jsv) : list jsv :=
  match field config "routes" with JArr rs => rs | _ => [] end.

(** One request through the application: body parsers ([body_ok] is false
    when express.json or express.urlencoded rejects the body, which sends
    the error to the error-handling middleware), CORS, response time,
    shutdown check, global headers, security headers, routes, 404.  A
    middleware that throws hands the error to the error-handling
    middleware. *)
Definition app_handle (state : server_state) (config : jsv) (body_ok : bool)
  (req : request) : response * list event :=
  if negb body_ok then (internal_error res_start, [])
  else
    match cors_stage config req res_start with
    | MEnd res1 => (res1, [])
    | MFail res1 _ => (internal_error res1, [])
    | MNext res1 =>
        let req := {| req_method := req_method req; req_path := req_path req;
                      req_params := req_params req; req_query := req_query req;
                      req_headers := req_headers req; req_body := req_body req;
                      req_startTime := now |} in
        if isShuttingDown state then
          (res_json (res_status_set res1 (JNum 503)) (error_body "Server is shutting down"), [])
        else
          match global_headers config req res1 with
          | (MFail res2 _, ev) => (internal_error res2, ev)
          | (MEnd res2, ev) => (res2, ev)
          | (MNext res2, ev) =>
              match security_headers res2 with
              | MFail res3 _ => (internal_error res3, ev)
              | MEnd res3 => (res3, ev)
              | MNext res3 => dispatch (config_routes config) req res3 ev
              end
          end
    end.

End App.

(** ** Properties of values used by the statements *)





(** No string leaf of [v] is the empty string. *)
Fixpoint no_empty_string (v : jsv) : bool :=
  match v with
  | JStr s => negb (String.eqb s "")
  | JArr xs => forallb no_empty_string xs
  | JObj fs => forallb (fun kv => no_empty_string (snd kv)) fs
  | _ => true
  end.

Fixpoint keys_unique (ks : list string) : bool :=
  match ks with
  | [] => true
  | k :: r => negb (mem k r) && keys_unique r
  end.

(** Every object in [v] has unique keys, none of them [__proto__]. *)
Fixpoint plain_keys (v : jsv) : bool :=
  match v with
  | JArr xs => forallb plain_keys xs
  | JObj fs =>
      keys_unique (map fst fs)
      && forallb (fun kv => negb (String.eqb (fst kv) "__proto__")) fs
      && forallb (fun kv => plain_keys (snd kv)) fs
  | _ => true
  end.

(** Structural equality of two JSON values: scalars by value, arrays element
    for element, objects key by key. *)
Fixpoint deep_equal (a b : jsv) : bool :=
  match a, b with
  | JArr xs, JArr ys =>
      (fix go (xs ys : list jsv) : bool :=
         match xs, ys with
         | [], [] => true
         | x :: xs', y :: ys' => deep_equal x y && go xs' ys'
         | _, _ => false
         end) xs ys
  | JObj fs, JObj gs =>
      Nat.eqb (List.length fs) (List.length gs)
      && forallb (fun kv => match assoc (fst kv) gs with
                            | Some y => deep_equal (snd kv) y
                            | None => false end) fs
  | _, _ => strict_eq a b
  end.

(** The matcher as the specification words it: [actual] present and, for
    every key listed in [expected], the value at that key deeply equal. *)
Definition matchValues_claim (expected actual : jsv) : bool :=
  truthy actual &&
  match entries expected with
  | Ok es => forallb (fun kv => match get_prop actual (fst kv) with
                                | Ok a => deep_equal (snd kv) a
                                | Throw _ => false end) es
  | Throw _ => false
  end.

(** A fixed output for the built-in helpers, for concrete runs. *)
Definition fixed_helper (name : string) (args : list string) : string := "0".

(** The value [res.set(header, v)] stores for a rendering [rendered] of a
    header template; [None] when rendering threw or [setHeader] refuses
    the name or the value. *)
Definition header_value (rendered : result string) (header : string) : option string :=
  match rendered with
  | Throw _ => None
  | Ok s =>
      let v := express_header_value header s in
      if valid_header_name header && valid_header_value v then Some v else None
  end.

(** The value a route header ends up with, rendered with the data the route
    handler builds for it. *)
Definition route_header_value (helper : string -> list string -> string) (now : Z)
  (req : request) (header : string) (value : jsv) : option string :=
  header_value (fst (processTemplate helper now value (Some 0%nat) (fresh (templateData now req))))
    header.

Definition header_fails (helper : string -> list string -> string) (now : Z)
  (req : request) (header : string) (value : jsv) : bool :=
  match route_header_value helper now req header value with None => true | Some _ => false end.

(** The number of route headers that fail. *)
Definition route_header_failures (helper : string -> list string -> string) (now : Z)
  (req : request) (hs : list (string * jsv)) : nat :=
  List.length (List.filter (fun kv => header_fails helper now req (fst kv) (snd kv)) hs).

(** The header store after the route header loop: each header that renders
    and that [setHeader] accepts is set, in order. *)
Definition route_headers_applied (helper : string -> list string -> string) (now : Z)
  (req : request) (hs : list (string * jsv)) (h0 : list (string * string))
  : list (string * string) :=
  fold_left (fun h kv => match route_header_value helper now req (fst kv) (snd kv) with
                         | Some v => set_header h (fst kv) v
                         | None => h
                         end) hs h0.


(** ** Sample inputs *)

(** A request to [path] with the given method, query and body, arriving at
    time 0. *)
Definition sample_request (method path : string) (query body : jsv) : request :=
  {| req_method := method; req_path := path; req_params := JObj [];
     req_query := query; req_headers := JObj [("host", JStr "localhost")];
     req_body := body; req_startTime := 0 |}.



(** A route with one header template that renders empty and one that
    renders fine. *)
Definition headers_route : jsv :=
  JObj [("method", JStr "GET"); ("path", JStr "/h");
        ("headers", JObj [("X-Missing", JStr "{{missing}}"); ("X-Ok", JStr "fine")]);
        ("response", JObj [("msg", JStr "A")])].


Definition one_route_config (route : jsv) : jsv := JObj [("routes", JArr [route])].

(** A path matcher for concrete runs, exact for route paths without
    parameters: ['*'] matches every path, a literal path matches itself
    case-insensitively, with or without a trailing slash. *)
Definition literal_path_match (p : jsv) (path : string) : result (option obj) :=
  match p with
  | JStr "*" => Ok (Some [("0", JStr path)])
  | JStr s =>
      if String.eqb (lower s) (lower path) || String.eqb (lower (s ++ "/")) (lower path)
      then Ok (Some []) else Ok None
  | _ => Ok None
  end.

(** finalhandler's status for an error carrying [status] 400, as Express
    gives the URIError of a malformed path parameter; the page it sends is
    not modelled. *)
Definition sample_final_handler (e : jserr) (res : response) : response :=
  res_status_set res (JNum 400).

(** ** Configuration loading (loadConfig, server.js) *)

(** The outcome of [fs.readFile(path, 'utf8')]: the file's content, or a
    rejection with the system error code ([ENOENT], [EACCES], ...) it
    carries. *)
Inductive read_result : Type :=
| ReadOk (content : string)
| ReadErr (code : string) (e : jserr).

Section Loader.

(** [fs.readFile] and [JSON.parse]. *)
Variable readFile : string -> read_result.
Variable json_parse : string -> result jsv.

(** The inner [catch] replaces every exception of [JSON.parse] and
    [validateConfig] by a fresh error without a [code]; the outer [catch]
    translates [ENOENT] and rethrows everything else. *)
Definition loadConfig (configPath : string) : result jsv :=
  match readFile configPath with
  | ReadErr code e =>
      if String.eqb code "ENOENT"
      then Throw (Error ("Config file not found: " ++ configPath))
      else Throw e
  | ReadOk configContent =>
      match (let! config := json_parse configContent in
             let! _u := validateConfig config in
             Ok config) with
      | Ok config => Ok config
      | Throw _ => Throw (Error "Invalid JSON in config file")
      end
  end.

End Loader.

(** ** Server lifecycle (createState, gracefulShutdown, stopServer) *)

(** The state object of createState; handles (timer, http server, file
    watcher) are named by numbers.  [stopServer] also writes [state.app],
    which nothing reads; it is left out. *)
Record lifecycle := {
  ls_isShuttingDown : bool;
  ls_shutdownTimeout : option nat;
  ls_server : option nat;
  ls_config : option jsv;
  ls_watcher : option nat
}.

Definition createState : lifecycle :=
  {| ls_isShuttingDown := false; ls_shutdownTimeout := None; ls_server := None;
     ls_config := None; ls_watcher := None |}.

(** The view of the state the shutdown middleware reads. *)
Definition middleware_state (s : lifecycle) : server_state :=
  {| isShuttingDown := ls_isShuttingDown s |}.

(** Calls into the runtime made by the lifecycle functions. *)
Inductive effect : Type :=
| ClearTimeout (t : nat)
| SetTimeout (t : nat) (ms : Z)
| CloseServer (srv : nat)
| CloseWatcher (w : nat)
| Exit (code : Z).

(** The synchronous part of gracefulShutdown; [timer] is the handle
    [setTimeout] returns.  The callbacks of [setTimeout] and
    [server.close] run later, outside this call. *)
Definition gracefulShutdown (timer : nat) (s : lifecycle) : lifecycle * list effect :=
  if ls_isShuttingDown s then (s, [])
  else
    let clear := match ls_shutdownTimeout s with
                 | Some t => [ClearTimeout t]
                 | None => []
                 end in
    let close := match ls_server s with
                 | Some srv => [CloseServer srv]
                 | None => [Exit 0]
                 end in
    ({| ls_isShuttingDown := true; ls_shutdownTimeout := Some timer;
        ls_server := ls_server s; ls_config := ls_config s; ls_watcher := ls_watcher s |},
     app clear (app [SetTimeout timer 5000] close)).

(** stopServer, with the outcomes of [watcher.close()] and of the
    [server.close] callback; a rejection leaves the function at the
    [await] with the state as far as it got. *)
Definition stopServer (watcher_close server_close : result unit) (s : lifecycle)
  : result unit * lifecycle * list effect :=
  let '(r1, s1, e1) :=
    match ls_watcher s with
    | Some w =>
        match watcher_close with
        | Ok _ => (Ok tt,
                   {| ls_isShuttingDown := ls_isShuttingDown s;
                      ls_shutdownTimeout := ls_shutdownTimeout s; ls_server := ls_server s;
                      ls_config := ls_config s; ls_watcher := None |}, [CloseWatcher w])
        | Throw e => (Throw e, s, [CloseWatcher w])
        end
    | None => (Ok tt, s, [])
    end in
  match r1 with
  | Throw e => (Throw e, s1, e1)
  | Ok _ =>
      let '(r2, s2, e2) :=
        match ls_server s1 with
        | Some srv =>
            match server_close with
            | Ok _ => (Ok tt,
                       {| ls_isShuttingDown := ls_isShuttingDown s1;
                          ls_shutdownTimeout := ls_shutdownTimeout s1; ls_server := None;
                          ls_config := ls_config s1; ls_watcher := ls_watcher s1 |},
                       app e1 [CloseServer srv])
            | Throw e => (Throw e, s1, app e1 [CloseServer srv])
            end
        | None => (Ok tt, s1, e1)
        end in
      match r2 with
      | Throw e => (Throw e, s2, e2)
      | Ok _ =>
          let '(s3, e3) :=
            match ls_shutdownTimeout s2 with
            | Some t => ({| ls_isShuttingDown := ls_isShuttingDown s2;
                            ls_shutdownTimeout := None; ls_server := ls_server s2;
                            ls_config := ls_config s2; ls_watcher := ls_watcher s2 |},
                         app e2 [ClearTimeout t])
            | None => (s2, e2)
            end in
          (Ok tt,
           {| ls_isShuttingDown := false; ls_shutdownTimeout := ls_shutdownTimeout s3;
              ls_server := ls_server s3; ls_config := None; ls_watcher := ls_watcher s3 |},
           e3)
      end
  end.

(** ** Predicates used by the statements about the pipeline *)

(** A response header list has a header of this name (names compare
    case-insensitively, as [res.set] treats them). *)
Definition has_header (hs : list (string * string)) (name : string) : bool :=
  existsb (fun kv => String.eqb (lower (fst kv)) (lower name)) hs.



(** A value with every string leaf replaced by the empty string: its shape. *)
Fixpoint skeleton (v : jsv) : jsv :=
  match v with
  | JStr _ => JStr ""
  | JArr xs => JArr (map skeleton xs)
  | JObj fs => JObj (map (fun '(k, x) => (k, skeleton x)) fs)
  | _ => v
  end.




(** The own entries [{...v}] copies ([null] and [undefined] copy
    nothing). *)
Definition spread_entries (v : jsv) : list (string * jsv) :=
  match entries v with Ok es => es | Throw _ => [] end.

(** A route accepted by the validator: an object with a truthy [method] and
    [path], a truthy [response] or [errorCode], and, when [conditions] is
    truthy, only the condition keys [query], [headers] and [body]. *)
Definition route_ok (route : jsv) : Prop :=
  exists fs, route = JObj fs
  /\ truthy (obj_get fs "method") = true
  /\ truthy (obj_get fs "path") = true
  /\ (truthy (obj_get fs "response") = true \/ truthy (obj_get fs "errorCode") = true)
  /\ (truthy (obj_get fs "conditions") = true ->
      exists ks, keys (obj_get fs "conditions") = Ok ks /\ Forall (fun k => In k validFields) ks).

(** The CORS options pass the validator: when [globals] and [globals.cors]
    are truthy and [cors] is an object, each of its keys is a documented
    option. *)
Definition cors_ok (config : jsv) : Prop :=
  let g := field config "globals" in
  truthy g = true ->
  let c := field g "cors" in
  truthy c && is_object_type c = true ->
  exists ks, keys c = Ok ks /\ Forall (fun k => In k validCorsFields) ks.


(** An exception raised by the template functions' [catch]. *)
Definition tpe_error (e : jserr) : Prop :=
  exists m, e = Error ("Template processing error: " ++ m).

(** Frame: store locations other than the one of [data]. *)
Definition frame_rel (data : option nat) (st st' : gmap nat obj) : Prop :=
  forall l, data <> Some l -> st' !! l = st !! l.

(** The effect on a handle, when the handle is present. *)
Definition opt_effect (f : nat -> effect) (h : option nat) : list effect :=
  match h with Some x => [f x] | None => [] end.

(** * Theorems *)

(** ** Concrete runs *)


(** C2 (code bug): the nested-object condition of the repository's test
    [should handle nested object conditions]: [matchValues] compares the
    nested objects with [!==] and answers false, although they are equal
    key by key. *)
Lemma matchValues_nested_object_bug :
  let expected := JObj [("user", JObj [("profile", JObj [("role", JStr "admin")])])] in
  let actual := JObj [("user", JObj [("profile", JObj [("role", JStr "admin")])])] in
  matchValues expected actual = Ok false /\ matchValues_claim expected actual = true.
Proof. vm_compute. split; reflexivity. Qed.

(** C3 (code bug): the configurations of the repository's tests
    [should throw for invalid error code] and [should throw for invalid
    delay] pass [validateConfig] without an exception. *)
Lemma validateConfig_accepts_bad_errorCode_and_delay :
  validateConfig (one_route_config
    (JObj [("path", JStr "/error"); ("method", JStr "GET"); ("errorCode", JNum 200)]))
  = Ok tt
  /\ validateConfig (one_route_config
    (JObj [("path", JStr "/slow"); ("method", JStr "GET");
           ("response", JObj [("message", JStr "Delayed response")]);
           ("delay", JNum (-1000))]))
  = Ok tt.
Proof. vm_compute. split; reflexivity. Qed.





(** A key [__proto__] is dropped by [result[key] = ...]. *)
Lemma proto_key_dropped :
  fst (processJsonTemplate fixed_helper 0 (JObj [("__proto__", JStr "x")]) None ∅)
  = Ok (JObj []).
Proof. vm_compute. reflexivity. Qed.

(** C8 (code bug): a condition set [{query: null}] passes validation, and
    [checkConditions] then throws a TypeError from [Object.entries(null)]. *)
Lemma checkConditions_throws_on_null_expected :
  validateConditions (JObj [("query", JNull)]) = Ok tt
  /\ checkConditions (JObj [("query", JNull)])
       (sample_request "GET" "/content" (JObj []) (JObj []))
     = Throw (TypeError "Cannot convert undefined or null to object").
Proof. vm_compute. split; reflexivity. Qed.

(** C9 (counterexample): an empty [routes] array is accepted. *)
Lemma empty_routes_counterexample :
  validateConfig (JObj [("routes", JArr [])]) = Ok tt.
Proof. vm_compute. reflexivity. Qed.


(** ** The context object written by processTemplate *)



(** ** Config validator *)

(** C9: a configuration whose [routes] property is missing or is not an
    array is rejected with an exception (an empty array is accepted, see
    [empty_routes_counterexample]). *)
Theorem validateConfig_rejects_non_array_routes :
  forall config : jsv,
    (forall rs, get_prop config "routes" <> Ok (JArr rs)) ->
    exists e, validateConfig config = Throw e.
Proof.
  intros config H. unfold validateConfig.
  destruct (truthy config); cbn [negb].
  - destruct (get_prop config "routes") as [r|e] eqn:Hg; cbn [rbind].
    + destruct r; try (eexists; reflexivity).
      exfalso. exact (H xs eq_refl).
    + eexists; reflexivity.
  - eexists; reflexivity.
Qed.

Lemma validateConfig_rejects_non_array_routes_witness :
  (forall rs, get_prop (JObj [("globals", JObj [])]) "routes" <> Ok (JArr rs))
  /\ exists e, validateConfig (JObj [("globals", JObj [])]) = Throw e.
Proof.
  assert (H : forall rs, get_prop (JObj [("globals", JObj [])]) "routes" <> Ok (JArr rs))
    by (intros rs; simpl; discriminate).
  split; [exact H|].
  exact (validateConfig_rejects_non_array_routes _ H).
Defined.

(** ** Shutdown *)






(** ** Conditions and fallback *)



(** ** Route headers *)

Lemma all_chars_app (p : ascii -> bool) (a b : string) :
  all_chars p (a ++ b) = all_chars p a && all_chars p b.
Proof. induction a as [|c r IH]; simpl; [reflexivity|]. rewrite IH. apply andb_assoc. Qed.

Lemma all_chars_rev (p : ascii -> bool) (s : string) :
  all_chars p (string_rev s) = all_chars p s.
Proof.
  induction s as [|c r IH]; cbn [string_rev all_chars]; [reflexivity|].
  rewrite all_chars_app, IH. cbn [all_chars]. rewrite andb_true_r. apply andb_comm.
Qed.

Lemma digits_rev_header (fuel : nat) :
  forall n, all_chars header_char (digits_rev fuel n) = true.
Proof.
  induction fuel as [|f IH]; intros n; cbn [digits_rev]; [reflexivity|].
  assert (Hd : header_char (ascii_of_N (48 + n mod 10)) = true).
  { assert (H10 : (n mod 10 < 10)%N) by (apply N.mod_lt; discriminate).
    destruct (n mod 10)%N as [|p]; [reflexivity|].
    assert (Hp : (p = 1 \/ p = 2 \/ p = 3 \/ p = 4 \/ p = 5 \/ p = 6 \/ p = 7
                  \/ p = 8 \/ p = 9)%positive) by lia.
    repeat destruct Hp as [-> | Hp]; try reflexivity; subst; reflexivity. }
  destruct (n <? 10)%N; cbn [all_chars]; rewrite Hd; [reflexivity|apply IH].
Qed.

Lemma warning_valid (n : nat) :
  valid_header_value ("Failed to process " ++ nat_to_string n ++ " headers") = true.
Proof.
  unfold valid_header_value. rewrite !all_chars_app. unfold nat_to_string.
  rewrite all_chars_rev, digits_rev_header. reflexivity.
Qed.

(** [X-Header-Warning] is always accepted by [setHeader]. *)
Lemma warning_set (res : response) (n : nat) :
  res_set res "X-Header-Warning" ("Failed to process " ++ nat_to_string n ++ " headers")
  = Ok (with_header res "X-Header-Warning" ("Failed to process " ++ nat_to_string n ++ " headers")).
Proof.
  assert (E : forall w, express_header_value "X-Header-Warning" w = w) by reflexivity.
  unfold res_set. rewrite E. unfold res_setHeader. rewrite warning_valid. reflexivity.
Qed.

(** One step of a header loop: [res.set] of a rendered value either stores
    [header_value] or throws, and then [header_value] is [None]. *)
Lemma res_set_rendered (rendered : result string) (res : response) (header : string) :
  (exists v, header_value rendered header = Some v
             /\ (let! s := rendered in res_set res header s) = Ok (with_header res header v))
  \/ (header_value rendered header = None
      /\ exists e, (let! s := rendered in res_set res header s) = Throw e).
Proof.
  unfold header_value. destruct rendered as [s|e]; cbn [rbind]; [|right; eauto].
  unfold res_set, res_setHeader.
  destruct (valid_header_name header); cbn [negb andb]; [|right; eauto].
  destruct (valid_header_value (express_header_value header s)); cbn [negb]; [left|right]; eauto.
Qed.

Section RouteHeaders.

Variable helper : string -> list string -> string.
Variable now : Z.

(** The header loop only records header events and never changes the
    status or the body; it stores exactly the headers [res.set] accepts and
    counts the others. *)
Lemma route_headers_spec :
  forall (hs : list (string * jsv)) (req : request) (res : response)
         (errs : nat) (ev : list event),
    let '(res', errs', ev') := route_headers helper now hs req res errs ev in
    res_status res' = res_status res
    /\ res_body res' = res_body res
    /\ res_headers res' = route_headers_applied helper now req hs (res_headers res)
    /\ errs' = (errs + route_header_failures helper now req hs)%nat
    /\ (forall e, In e ev' -> In e ev \/ exists h, e = EvHeader h).
Proof.
  induction hs as [|[header value] r IH]; intros req res errs ev.
  - cbn. split; [reflexivity|]. split; [reflexivity|]. split; [reflexivity|].
    split; [unfold route_header_failures; cbn; lia|]. intros e He. left. exact He.
  - cbn [route_headers]. unfold route_headers_applied, route_header_failures.
    cbn [fold_left List.filter fst snd].
    destruct (res_set_rendered (fst (processTemplate helper now value (Some 0%nat)
                                     (fresh (templateData now req)))) res header)
      as [[v [Hv Hs]]|[Hv [e0 Hs]]];
      change (header_value _ header) with (route_header_value helper now req header value) in Hv;
      unfold header_fails at 1; rewrite Hs, Hv.
    + specialize (IH req (with_header res header v) errs (app ev [EvHeader header])).
      destruct (route_headers helper now r req (with_header res header v) errs
                  (app ev [EvHeader header])) as [[res' errs'] ev'].
      destruct IH as [Hst [Hb [Hh [He Hev]]]].
      split; [exact Hst|]. split; [exact Hb|]. split; [exact Hh|]. split; [exact He|].
      intros x Hx. destruct (Hev x Hx) as [Hin|Hh']; [|right; exact Hh'].
      apply in_app_or in Hin. destruct Hin as [Hin|Hin]; [left; exact Hin|].
      right. destruct Hin as [<-|[]]. eexists; reflexivity.
    + specialize (IH req res (S errs) (app ev [EvHeader header])).
      destruct (route_headers helper now r req res (S errs)
                  (app ev [EvHeader header])) as [[res' errs'] ev'].
      destruct IH as [Hst [Hb [Hh [He Hev]]]].
      split; [exact Hst|]. split; [exact Hb|]. split; [exact Hh|].
      split; [unfold route_header_failures in He; cbn [List.length]; lia|].
      intros x Hx. destruct (Hev x Hx) as [Hin|Hh']; [|right; exact Hh'].
      apply in_app_or in Hin. destruct Hin as [Hin|Hin]; [left; exact Hin|].
      right. destruct Hin as [<-|[]]. eexists; reflexivity.
Qed.

Lemma lower_eq : forall a b : string, a = b -> String.eqb (lower a) (lower b) = true.
Proof. intros a b ->. apply String.eqb_refl. Qed.

(** The header just set is the one [assoc] finds under its name. *)
Lemma assoc_set_header :
  forall hs name v, assoc name (set_header hs name v) = Some v.
Proof.
  induction hs as [|[n w] r IH]; intros name v; cbn.
  - rewrite String.eqb_refl. reflexivity.
  - destruct (String.eqb (lower n) (lower name)) eqn:Hl; cbn.
    + rewrite String.eqb_refl. reflexivity.
    + destruct (String.eqb_spec name n) as [->|Hne].
      * rewrite lower_eq in Hl by reflexivity. discriminate.
      * apply IH.
Qed.

(** The route header block passes the request on, keeps the status and
    the body, and records only header events. *)
Lemma apply_route_headers_spec :
  forall (route : jsv) (req : request) (res : response) (ev : list event),
    exists res' ev',
      apply_route_headers helper now route req res ev = (MNext res', ev')
      /\ res_status res' = res_status res
      /\ res_body res' = res_body res
      /\ (forall e, In e ev' -> In e ev \/ exists h, e = EvHeader h).
Proof.
  intros route req res ev. unfold apply_route_headers.
  destruct (truthy (field route "headers")) eqn:Ht.
  - destruct (entries (field route "headers")) as [hs|e] eqn:He.
    + pose proof (route_headers_spec hs req res 0 ev) as Hs.
      destruct (route_headers helper now hs req res 0 ev) as [[res' errs] ev'].
      destruct Hs as [Hst [Hb [_ [_ Hev]]]].
      destruct (0 <? errs)%nat.
      * rewrite warning_set. do 2 eexists. split; [reflexivity|].
        split; [exact Hst|]. split; [exact Hb|exact Hev].
      * do 2 eexists. split; [reflexivity|]. split; [exact Hst|]. split; [exact Hb|exact Hev].
    + exfalso. destruct (field route "headers"); discriminate.
  - do 2 eexists. split; [reflexivity|]. split; [reflexivity|]. split; [reflexivity|].
    intros e He; left; exact He.
Qed.

End RouteHeaders.





(** ** Error routes *)





(** ** Template processing of values without template syntax *)

(** Induction over JSON values, with the hypothesis for each element of an
    array and each property of an object. *)
Lemma jsv_nested_ind (P : jsv -> Prop)
  (HU : P JUndef) (HN : P JNull) (HB : forall b, P (JBool b))
  (HZ : forall z, P (JNum z)) (HS : forall s, P (JStr s))
  (HA : forall xs, Forall P xs -> P (JArr xs))
  (HO : forall fs, Forall (fun kv => P (snd kv)) fs -> P (JObj fs)) :
  forall v, P v.
Proof.
  exact (fix F (v : jsv) : P v :=
    match v with
    | JUndef => HU
    | JNull => HN
    | JBool b => HB b
    | JNum z => HZ z
    | JStr s => HS s
    | JArr xs =>
        HA xs ((fix G (xs : list jsv) : Forall P xs :=
                  match xs with
                  | [] => @List.Forall_nil _ P
                  | x :: r => @List.Forall_cons _ P x r (F x) (G r)
                  end) xs)
    | JObj fs =>
        HO fs ((fix G (fs : list (string * jsv)) : Forall (fun kv => P (snd kv)) fs :=
                  match fs with
                  | [] => @List.Forall_nil _ (fun kv => P (snd kv))
                  | (k, x) :: r => @List.Forall_cons _ (fun kv => P (snd kv)) (k, x) r (F x) (G r)
                  end) fs)
    end).
Qed.








Lemma in_mem (k : string) (l : list string) : In k l -> mem k l = true.
Proof.
  intros Hin. unfold mem. apply existsb_exists. exists k.
  split; [exact Hin|apply String.eqb_refl].
Qed.

Lemma obj_define_fresh (acc : obj) (k : string) (v : jsv) :
  ~ In k (List.map fst acc) -> obj_define acc k v = app acc [(k, v)].
Proof.
  induction acc as [|[k' v'] r IH]; intros Hn; [reflexivity|].
  cbn. destruct (String.eqb_spec k k') as [->|Hne].
  - exfalso. apply Hn. left. reflexivity.
  - rewrite IH; [reflexivity|]. intros Hin. apply Hn. right. exact Hin.
Qed.






(** ** Condition matcher *)

Lemma mem_In (k : string) (l : list string) : mem k l = true <-> In k l.
Proof.
  unfold mem. rewrite existsb_exists. split.
  - intros [x [Hx He]]. apply String.eqb_eq in He. subst x. exact Hx.
  - intros Hin. exists k. split; [exact Hin|apply String.eqb_refl].
Qed.

Lemma get_prop_defined (a : jsv) (k : string) :
  truthy a = true -> exists x, get_prop a k = Ok x.
Proof.
  destruct a; cbn; try discriminate; intros _; eauto;
    destruct (String.eqb k "length"); eauto.
Qed.

Lemma match_entries_true (es : list (string * jsv)) (a : jsv) :
  match_entries es a = Ok true <->
  Forall (fun kv => exists x, get_prop a (fst kv) = Ok x /\ strict_eq x (snd kv) = true) es.
Proof.
  induction es as [|[k v] r IH]; cbn.
  - split; [constructor|reflexivity].
  - destruct (get_prop a k) as [x|e] eqn:Hg; cbn.
    + destruct (strict_eq x v) eqn:E; cbn.
      * rewrite IH. split; intros H.
        -- constructor; [exists x; split; assumption|exact H].
        -- inversion H; assumption.
      * split; [discriminate|]. intros H. inversion H as [|? ? [x' [Hx' Hs]]]; subst.
        cbn in Hx'. rewrite Hg in Hx'. injection Hx' as <-. cbn in Hs. congruence.
    + split; [discriminate|]. intros H. inversion H as [|? ? [x' [Hx' _]]]; subst.
      cbn in Hx'. congruence.
Qed.

Lemma match_entries_defined (es : list (string * jsv)) (a : jsv) (err : jserr) :
  truthy a = true -> match_entries es a <> Throw err.
Proof.
  intros Ha. induction es as [|[k v] r IH]; cbn; [discriminate|].
  destruct (get_prop_defined a k Ha) as [x Hx]. rewrite Hx. cbn.
  destruct (negb (strict_eq x v)); [discriminate|exact IH].
Qed.

Lemma check_entries_true (es : list (string * jsv)) (req : request) :
  check_entries es req = Ok true <->
  Forall (fun fe => matchValues (snd fe) (req_get req (fst fe)) = Ok true) es.
Proof.
  induction es as [|[f e] r IH]; cbn.
  - split; [constructor|reflexivity].
  - destruct (matchValues e (req_get req f)) as [[|]|err] eqn:Hm; cbn.
    + rewrite IH. split; intros H; [constructor; [exact Hm|exact H] | inversion H; auto].
    + split; [discriminate|]. intros H. inversion H; subst. cbn in *. congruence.
    + split; [discriminate|]. intros H. inversion H; subst. cbn in *. congruence.
Qed.

(** matchValues answers true exactly when [actual] is truthy and, for every
    entry of [expected], the property of [actual] at that key is strictly
    equal to the expected value. *)
Theorem matchValues_true_iff (expected actual : jsv) :
  matchValues expected actual = Ok true <->
  truthy actual = true
  /\ exists es, entries expected = Ok es
     /\ Forall (fun kv => exists x, get_prop actual (fst kv) = Ok x
                                    /\ strict_eq x (snd kv) = true) es.
Proof.
  unfold matchValues. destruct (truthy actual); cbn.
  - destruct (entries expected) as [es|e]; cbn.
    + rewrite match_entries_true. split.
      * intros H. split; [reflexivity|]. eauto.
      * intros [_ [es' [Hes H]]]. injection Hes as <-. exact H.
    + split; [discriminate|]. intros [_ [es [Hes _]]]. discriminate.
  - split; [discriminate|]. intros [H _]. discriminate.
Qed.

(** matchValues throws only when [actual] is truthy and [expected] is
    [null] or [undefined] ([Object.entries] of it). *)
Theorem matchValues_throws_only_on_null_expected (expected actual : jsv) (err : jserr) :
  matchValues expected actual = Throw err ->
  truthy actual = true /\ (expected = JUndef \/ expected = JNull).
Proof.
  unfold matchValues. destruct (truthy actual) eqn:Ha; cbn; [|discriminate].
  intros H. split; [reflexivity|].
  destruct expected; cbn in H; auto; try discriminate;
    exfalso; exact (match_entries_defined _ _ _ Ha H).
Qed.

Lemma matchValues_throws_only_on_null_expected_witness :
  matchValues JNull (JObj [("type", JStr "basic")])
  = Throw (TypeError "Cannot convert undefined or null to object")
  /\ truthy (JObj [("type", JStr "basic")]) = true
     /\ (JNull = JUndef \/ JNull = JNull).
Proof.
  assert (H : matchValues JNull (JObj [("type", JStr "basic")])
              = Throw (TypeError "Cannot convert undefined or null to object"))
    by reflexivity.
  split; [exact H|].
  exact (matchValues_throws_only_on_null_expected _ _ _ H).
Defined.

(** An expected value that is an object or an array never matches: the
    comparison [!==] sees two different objects. *)
Theorem matchValues_composite_never_matches (expected actual : jsv)
  (es : list (string * jsv)) (k : string) (v : jsv) :
  entries expected = Ok es -> In (k, v) es ->
  (exists xs, v = JArr xs) \/ (exists fs, v = JObj fs) ->
  matchValues expected actual <> Ok true.
Proof.
  intros Hes Hin Hv Hm. apply matchValues_true_iff in Hm as [_ [es' [Hes' Hall]]].
  rewrite Hes in Hes'. injection Hes' as <-.
  rewrite List.Forall_forall in Hall. destruct (Hall _ Hin) as [x [_ Hs]]. cbn in Hs.
  destruct Hv as [[xs ->]|[fs ->]]; destruct x; discriminate.
Qed.

Lemma matchValues_composite_never_matches_witness :
  matchValues (JObj [("tags", JArr [JStr "a"])]) (JObj [("tags", JArr [JStr "a"])]) <> Ok true.
Proof.
  apply (matchValues_composite_never_matches _ _ [("tags", JArr [JStr "a"])] "tags"
           (JArr [JStr "a"])).
  - reflexivity.
  - left. reflexivity.
  - left. eauto.
Defined.

(** checkConditions answers true exactly when the conditions are falsy or,
    for every entry [field: expected] of them, matchValues of [expected]
    against [req[field]] is true. *)
Theorem checkConditions_true_iff (conditions : jsv) (req : request) :
  checkConditions conditions req = Ok true <->
  truthy conditions = false
  \/ exists es, entries conditions = Ok es
     /\ Forall (fun fe => matchValues (snd fe) (req_get req (fst fe)) = Ok true) es.
Proof.
  unfold checkConditions. destruct (truthy conditions); cbn.
  - destruct (entries conditions) as [es|e]; cbn.
    + rewrite check_entries_true. split.
      * intros H. right. eauto.
      * intros [H|[es' [Hes H]]]; [discriminate|]. injection Hes as <-. exact H.
    + split; [discriminate|]. intros [H|[es [Hes _]]]; discriminate.
  - split; auto.
Qed.

(** ** Configuration validator *)

Lemma all_digits_app (s t : string) :
  all_digits (s ++ t) = all_digits s && all_digits t.
Proof. induction s as [|c r IH]; simpl; [reflexivity|]. rewrite IH, andb_assoc. reflexivity. Qed.

Lemma digits_rev_all_digits (fuel : nat) (n : N) : all_digits (digits_rev fuel n) = true.
Proof.
  revert n. induction fuel as [|f IH]; intros n; cbn; [reflexivity|].
  assert (Hd : is_digit (ascii_of_N (48 + n mod 10)) = true).
  { pose proof (N.mod_lt n 10 ltac:(discriminate)) as Hlt.
    generalize dependent (n mod 10)%N. intros d Hlt.
    unfold is_digit, nat_of_ascii. rewrite N_ascii_embedding by lia.
    apply andb_true_intro; split; apply Nat.leb_le; lia. }
  destruct (n <? 10)%N; cbn; rewrite Hd; cbn; [reflexivity|apply IH].
Qed.

Lemma string_rev_all_digits (s : string) : all_digits (string_rev s) = all_digits s.
Proof.
  induction s as [|c r IH]; cbn; [reflexivity|].
  rewrite all_digits_app, IH. cbn. rewrite andb_true_r, andb_comm. reflexivity.
Qed.

Lemma nat_to_string_all_digits (n : nat) : all_digits (nat_to_string n) = true.
Proof. unfold nat_to_string. rewrite string_rev_all_digits. apply digits_rev_all_digits. Qed.

Lemma assoc_indexed_from {A} (k : string) (i : nat) (xs : list A) :
  all_digits k = false -> assoc k (indexed_from i xs) = None.
Proof.
  intros Hk. revert i. induction xs as [|x r IH]; intros i; cbn [indexed_from assoc]; [reflexivity|].
  destruct (String.eqb_spec k (nat_to_string i)) as [->|_]; [|apply IH].
  rewrite nat_to_string_all_digits in Hk. discriminate.
Qed.

(** Reading a named property (not an index, not [length]) of a value other
    than [undefined] and [null]. *)
Lemma get_prop_field (v : jsv) (k : string) :
  v <> JUndef -> v <> JNull -> all_digits k = false -> String.eqb k "length" = false ->
  get_prop v k = Ok (field v k).
Proof.
  intros Hu Hn Hk Hl. destruct v; cbn; try congruence; rewrite ?Hl.
  - rewrite (assoc_indexed_from _ _ _ Hk). reflexivity.
  - rewrite (assoc_indexed_from _ _ _ Hk). reflexivity.
Qed.

Lemma filter_invalid_nil (l ks : list string) :
  List.filter (fun f => negb (mem f l)) ks = [] <-> Forall (fun k => In k l) ks.
Proof.
  induction ks as [|k r IH]; cbn; [split; constructor + reflexivity|].
  destruct (mem k l) eqn:E; cbn.
  - rewrite IH. split; intros H.
    + constructor; [apply mem_In; exact E|exact H].
    + inversion H; assumption.
  - split; [discriminate|]. intros H. inversion H; subst.
    apply mem_In in H2. congruence.
Qed.

Lemma ltb_0_length {A} (xs : list A) : (0 <? List.length xs)%nat = false <-> xs = [].
Proof. destruct xs; cbn; split; intros H; congruence. Qed.

Lemma validateConditions_ok_iff (c : jsv) :
  validateConditions c = Ok tt <->
  exists ks, keys c = Ok ks /\ Forall (fun k => In k validFields) ks.
Proof.
  unfold validateConditions. destruct (keys c) as [ks|e]; cbn [rbind].
  - destruct (0 <? List.length (List.filter (fun f => negb (mem f validFields)) ks))%nat eqn:E.
    + split; [discriminate|]. intros [ks' [Hk Hf]]. injection Hk as <-.
      apply filter_invalid_nil, ltb_0_length in Hf. congruence.
    + apply ltb_0_length, filter_invalid_nil in E. split; eauto.
  - split; [discriminate|]. intros [ks [Hk _]]. discriminate.
Qed.

Lemma validate_routes_cons (route : jsv) (rest : list jsv) :
  validate_routes (route :: rest) = Ok tt <-> route_ok route /\ validate_routes rest = Ok tt.
Proof.
  destruct route as [| |b|z|s|xs|fs].
  1-2: cbn; split; [discriminate|]; intros [[fs' [E _]] _]; discriminate.
  1-4: cbn [validate_routes]; rewrite (get_prop_field _ "method") by (reflexivity || discriminate);
       cbn; split; [discriminate|]; intros [[fs' [E _]] _]; discriminate.
  cbn [validate_routes get_prop rbind].
  unfold route_ok.
  destruct (truthy (obj_get fs "method")) eqn:Hm; cbn [negb orb rbind].
  2: { split; [discriminate|]. intros [[fs' [E [Hm' _]]] _]. injection E as <-. congruence. }
  destruct (truthy (obj_get fs "path")) eqn:Hp; cbn [negb orb rbind].
  2: { split; [discriminate|]. intros [[fs' [E [_ [Hp' _]]]] _]. injection E as <-. congruence. }
  destruct (truthy (obj_get fs "response")) eqn:Hr; cbn [negb andb rbind].
  all: destruct (truthy (obj_get fs "errorCode")) eqn:He; cbn [negb andb rbind].
  4: { split; [discriminate|]. intros [[fs' [E [_ [_ [[H|H] _]]]]] _]; injection E as <-; congruence. }
  all: destruct (truthy (obj_get fs "conditions")) eqn:Hc; cbn [rbind].
  all: try (destruct (validateConditions (obj_get fs "conditions")) as [[]|err] eqn:Hv; cbn [rbind]).
  all: try (split; [intros H; split; [exists fs; repeat split; auto; intros _;
                                        apply validateConditions_ok_iff; exact Hv | exact H]
                   | intros [_ H]; exact H]).
  all: try (split; [intros H; split; [exists fs; repeat split; auto; congruence | exact H]
                   | intros [_ H]; exact H]).
  all: split; [discriminate|]; intros [[fs' [E [_ [_ [_ Hc']]]]] _]; injection E as <-;
       destruct (Hc' Hc) as [ks Hks]; assert (Hv' : validateConditions (obj_get fs "conditions") = Ok tt) by (apply validateConditions_ok_iff; exists ks; exact Hks); congruence.
Qed.

Lemma validate_routes_ok_iff (rs : list jsv) :
  validate_routes rs = Ok tt <-> Forall route_ok rs.
Proof.
  induction rs as [|r rest IH]; [split; [constructor|reflexivity]|].
  rewrite validate_routes_cons, IH. split.
  - intros [H1 H2]. constructor; assumption.
  - intros H. inversion H; split; assumption.
Qed.

Lemma validate_cors_ok_iff (fs : obj) :
  validate_cors (JObj fs) = Ok tt <-> cors_ok (JObj fs).
Proof.
  unfold validate_cors, cors_ok. cbn [get_prop rbind field].
  destruct (truthy (obj_get fs "globals")) eqn:Hg; cbn [negb].
  2: { split; [intros _ H; discriminate | intros _; reflexivity]. }
  assert (Hu : obj_get fs "globals" <> JUndef) by (intros E; rewrite E in Hg; discriminate).
  assert (Hn : obj_get fs "globals" <> JNull) by (intros E; rewrite E in Hg; discriminate).
  rewrite (get_prop_field (obj_get fs "globals") "cors" Hu Hn eq_refl eq_refl).
  cbn [rbind].
  destruct (truthy (field (obj_get fs "globals") "cors") &&
            is_object_type (field (obj_get fs "globals") "cors")) eqn:Ho.
  2: { split; [intros _ _ H; discriminate | intros _; reflexivity]. }
  destruct (keys (field (obj_get fs "globals") "cors")) as [ks|e] eqn:Hk; cbn [rbind].
  - destruct (0 <? List.length (List.filter (fun k => negb (mem k validCorsFields)) ks))%nat
      eqn:E.
    + split; [discriminate|]. intros H. destruct (H eq_refl eq_refl) as [ks' [Hk' Hf]].
      injection Hk' as <-. apply filter_invalid_nil, ltb_0_length in Hf. congruence.
    + apply ltb_0_length, filter_invalid_nil in E. split; eauto.
  - split; [discriminate|]. intros H. destruct (H eq_refl eq_refl) as [ks' [Hk' _]].
    discriminate.
Qed.

(** validateConfig accepts a configuration exactly when [routes] is an
    array, the CORS options (when [globals.cors] is an object) use only the
    documented keys, and every route is an object with a truthy method and
    path, a truthy response or errorCode, and condition keys among query,
    headers and body. *)
Theorem validateConfig_ok_iff (config : jsv) :
  validateConfig config = Ok tt <->
  exists rs, get_prop config "routes" = Ok (JArr rs) /\ cors_ok config /\ Forall route_ok rs.
Proof.
  destruct config as [| |b|z|s|xs|fs].
  1-2: cbn; split; [discriminate | intros [rs [H _]]; discriminate].
  1-4: match goal with |- validateConfig ?v = _ <-> _ =>
         assert (G : get_prop v "routes" = Ok JUndef)
           by (apply get_prop_field; (discriminate || reflexivity));
         unfold validateConfig; rewrite G; cbn [rbind];
         destruct (negb (truthy v)) end;
       (split; [discriminate | intros [rs [H _]]; cbn in H, G; congruence]).
  cbn [validateConfig truthy negb get_prop rbind].
  destruct (obj_get fs "routes") as [| |? |? |? |rs|?] eqn:Hr;
    try (split; [discriminate | intros [rs [H _]]; discriminate]).
  destruct (validate_cors (JObj fs)) as [[]|e] eqn:Hc; cbn [rbind].
  - rewrite validate_routes_ok_iff. split.
    + intros H. exists rs. split; [reflexivity|]. split; [apply validate_cors_ok_iff; exact Hc|exact H].
    + intros [rs' [E [_ H]]]. injection E as <-. exact H.
  - split; [discriminate|]. intros [rs' [_ [Hc' _]]]. apply validate_cors_ok_iff in Hc'. congruence.
Qed.

Lemma validateConfig_ok_iff_witness :
  validateConfig (JObj [("routes", JArr [JObj [("method", JStr "GET"); ("path", JStr "/a");
                                               ("errorCode", JNum 404)]])]) = Ok tt.
Proof.
  apply validateConfig_ok_iff. exists [JObj [("method", JStr "GET"); ("path", JStr "/a");
                                               ("errorCode", JNum 404)]].
  split; [reflexivity|]. split.
  - intros H. discriminate.
  - constructor; [|constructor].
    eexists. split; [reflexivity|]. cbn. repeat split; auto. intros H; discriminate.
Defined.

(** ** Template processing *)

Lemma processTemplate_ok_nonempty (helper : string -> list string -> string) (now : Z)
  (t : jsv) (data : option nat) (st : gmap nat obj) (r : string) :
  fst (processTemplate helper now t data st) = Ok r -> r <> "".
Proof.
  unfold processTemplate. destruct t; cbn -[hb_template]; intros H; try discriminate.
  revert H. destruct (if is_number _ then _ else _) as [sd st']. cbn -[hb_template].
  destruct (hb_template helper s sd) as [r'|e]; cbn -[hb_template]; intros H; [|discriminate].
  revert H. destruct (String.eqb_spec r' "") as [_|Hne]; cbn -[hb_template]; intros H; [discriminate|].
  injection H as <-. exact Hne.
Qed.


Lemma rethrow_tpe_snd {A} (r : result A * gmap nat obj) : snd (rethrow_tpe r) = snd r.
Proof. destruct r as [[a|e] s]; reflexivity. Qed.

(** Every exception processJsonTemplate throws is an [Error] whose message
    starts with [Template processing error: ]. *)
Theorem processJsonTemplate_error_message (helper : string -> list string -> string) (now : Z)
  (json : jsv) (data : option nat) (st : gmap nat obj) (e : jserr) :
  fst (processJsonTemplate helper now json data st) = Throw e -> tpe_error e.
Proof.
  assert (R : forall {A} (r : result A * gmap nat obj) e,
             fst (rethrow_tpe r) = Throw e -> tpe_error e)
    by (intros A [[a|e0] s] e0'; cbn -[hb_template]; intros H; [discriminate|injection H as <-; eexists; reflexivity]).
  destruct json; cbn [processJsonTemplate]; try discriminate; apply R.
Qed.

Lemma processJsonTemplate_error_message_witness :
  fst (processJsonTemplate fixed_helper 0 (JArr [JStr ""]) None ∅)
  = Throw (Error ("Template processing error: Template processing error: "
                  ++ "Template processing error: Template produced empty result"))
  /\ tpe_error (Error ("Template processing error: Template processing error: "
                  ++ "Template processing error: Template produced empty result")).
Proof.
  assert (H : fst (processJsonTemplate fixed_helper 0 (JArr [JStr ""]) None ∅)
              = Throw (Error ("Template processing error: Template processing error: "
                  ++ "Template processing error: Template produced empty result")))
    by (vm_compute; reflexivity).
  split; [exact H|]. exact (processJsonTemplate_error_message _ _ _ _ _ _ H).
Defined.

Lemma frame_refl (data : option nat) (st : gmap nat obj) : frame_rel data st st.
Proof. intros l _. reflexivity. Qed.

Lemma frame_trans (data : option nat) (s1 s2 s3 : gmap nat obj) :
  frame_rel data s1 s2 -> frame_rel data s2 s3 -> frame_rel data s1 s3.
Proof. intros H1 H2 l Hl. rewrite (H2 l Hl). exact (H1 l Hl). Qed.

Lemma processTemplate_frame (helper : string -> list string -> string) (now : Z)
  (t : jsv) (data : option nat) (st : gmap nat obj) :
  frame_rel data st (snd (processTemplate helper now t data st)).
Proof.
  unfold processTemplate. destruct t; try apply frame_refl.
  assert (Hs : frame_rel data st
                 (snd (let sd := match data with Some l => default [] (st !! l) | None => [] end in
                       if is_number (obj_get sd "startTime") then (sd, st)
                       else let d := obj_assign sd "startTime" (JNum now) in
                            (d, match data with Some l => <[l:=d]> st | None => st end)))).
  { cbv zeta. destruct (is_number _); [apply frame_refl|]. cbn [snd].
    destruct data as [l0|]; [|apply frame_refl].
    intros l Hl. apply lookup_insert_ne. congruence. }
  revert Hs. cbv zeta.
  destruct (if is_number _ then _ else _) as [sd st'].
  cbn -[hb_template]. intros Hs.
  destruct (hb_template helper s sd) as [r|e]; [destruct (String.eqb r "")|]; exact Hs.
Qed.

Lemma map_st_frame (f : jsv -> gmap nat obj -> result jsv * gmap nat obj)
  (data : option nat) (xs : list jsv) :
  Forall (fun x => forall st, frame_rel data st (snd (f x st))) xs ->
  forall st, frame_rel data st (snd (map_st f xs st)).
Proof.
  induction 1 as [|x r Hx Hr IH]; intros st; [apply frame_refl|].
  cbn. specialize (Hx st). destruct (f x st) as [[v|e] s1] eqn:E; cbn in Hx |- *; [|exact Hx].
  specialize (IH s1). destruct (map_st f r s1) as [[vs|e] s2]; cbn in IH |- *;
    exact (frame_trans _ _ _ _ Hx IH).
Qed.

Lemma assign_entries_frame (f : jsv -> gmap nat obj -> result jsv * gmap nat obj)
  (data : option nat) (fs : list (string * jsv)) :
  Forall (fun kv => forall st, frame_rel data st (snd (f (snd kv) st))) fs ->
  forall acc st, frame_rel data st (snd (assign_entries f fs acc st)).
Proof.
  induction 1 as [|[k v] r Hx Hr IH]; intros acc st; [apply frame_refl|].
  cbn. specialize (Hx st). cbn in Hx.
  destruct (f v st) as [[v'|e] s1]; cbn in Hx |- *; [|exact Hx].
  exact (frame_trans _ _ _ _ Hx (IH _ s1)).
Qed.

Lemma processJsonTemplate_frame_rel (helper : string -> list string -> string) (now : Z)
  (data : option nat) (json : jsv) :
  forall st, frame_rel data st (snd (processJsonTemplate helper now json data st)).
Proof.
  induction json as [| | b | z | s | xs IH | fs IH] using jsv_nested_ind; intros st;
    try apply frame_refl; cbn [processJsonTemplate]; rewrite rethrow_tpe_snd.
  - pose proof (processTemplate_frame helper now (JStr s) data st) as F.
    destruct (processTemplate helper now (JStr s) data st) as [r s']. exact F.
  - pose proof (map_st_frame (fun x st => processJsonTemplate helper now x data st) data xs IH st)
      as F.
    destruct (map_st _ xs st) as [r s']. exact F.
  - pose proof (assign_entries_frame (fun x st => processJsonTemplate helper now x data st)
                  data fs IH [] st) as F.
    destruct (assign_entries _ fs [] st) as [r s']. exact F.
Qed.

(** processJsonTemplate writes to no object of the store other than the
    context object [data] it is given; with no context object ([undefined]
    or [null], replaced by a fresh [{}]) the store is left as it was. *)
Theorem processJsonTemplate_frame (helper : string -> list string -> string) (now : Z)
  (json : jsv) (data : option nat) (st : gmap nat obj) (l : nat) :
  data <> Some l ->
  snd (processJsonTemplate helper now json data st) !! l = st !! l.
Proof.
  intros Hl. exact (processJsonTemplate_frame_rel helper now data json st l Hl).
Qed.

Lemma processJsonTemplate_frame_witness :
  (Some 0%nat <> Some 1%nat)
  /\ snd (processJsonTemplate fixed_helper 5 (JArr [JStr "a"; JStr "b"]) (Some 0%nat)
            (<[1%nat := [("k", JNull)]]> (fresh []))) !! 1%nat
     = Some [("k", JNull)].
Proof.
  assert (H : Some 0%nat <> Some 1%nat) by congruence.
  split; [exact H|].
  rewrite (processJsonTemplate_frame fixed_helper 5 (JArr [JStr "a"; JStr "b"]) (Some 0%nat)
             (<[1%nat := [("k", JNull)]]> (fresh [])) 1%nat H).
  vm_compute. reflexivity.
Defined.

Lemma map_st_ok (f : jsv -> gmap nat obj -> result jsv * gmap nat obj)
  (xs : list jsv) (st : gmap nat obj) (ys : list jsv) (st' : gmap nat obj) :
  map_st f xs st = (Ok ys, st') ->
  Forall2 (fun x y => exists s s', f x s = (Ok y, s')) xs ys.
Proof.
  revert st ys st'. induction xs as [|x r IH]; intros st ys st'; cbn.
  - intros H. injection H as <- _. constructor.
  - destruct (f x st) as [[v|e] s1] eqn:E1; [|discriminate].
    destruct (map_st f r s1) as [[vs|e] s2] eqn:E2; [|discriminate].
    intros H. injection H as <- _. constructor; [eauto|exact (IH _ _ _ E2)].
Qed.

Lemma assign_entries_ok (f : jsv -> gmap nat obj -> result jsv * gmap nat obj)
  (fs : list (string * jsv)) :
  keys_unique (List.map fst fs) = true ->
  forallb (fun kv => negb (String.eqb (fst kv) "__proto__")) fs = true ->
  forall acc st o st',
  (forall k, In k (List.map fst fs) -> ~ In k (List.map fst acc)) ->
  assign_entries f fs acc st = (Ok o, st') ->
  exists fs', o = app acc fs'
    /\ Forall2 (fun kv kv' => fst kv' = fst kv
                 /\ exists s s', f (snd kv) s = (Ok (snd kv'), s')) fs fs'.
Proof.
  induction fs as [|[k v] r IH]; intros Hu Hp acc st o st' Hd; cbn.
  - intros H. injection H as <- _. exists []. rewrite app_nil_r. split; [reflexivity|constructor].
  - cbn in Hu, Hp. apply andb_prop in Hu as [Hk Hu]. apply andb_prop in Hp as [Hkp Hp].
    destruct (f v st) as [[v'|e] s1] eqn:E1; [|discriminate].
    unfold obj_assign. apply negb_true_iff in Hkp. rewrite Hkp.
    rewrite obj_define_fresh by (apply Hd; left; reflexivity).
    intros H. destruct (IH Hu Hp (app acc [(k, v')]) s1 o st') as [fs' [Ho Hf]]; [|exact H|].
    + intros k' Hin Hin'. rewrite List.map_app in Hin'. apply in_app_or in Hin' as [H1|H1].
      * exact (Hd k' (or_intror Hin) H1).
      * destruct H1 as [H1|[]]. cbn in H1. subst k'.
        apply in_mem in Hin. rewrite Hin in Hk. discriminate.
    + exists ((k, v') :: fs'). split.
      * rewrite Ho, <- app_assoc. reflexivity.
      * constructor; [split; [reflexivity|eauto]|exact Hf].
Qed.

(** processJsonTemplate changes only the string leaves of a value whose
    objects have unique keys, none of them [__proto__]: when it returns, the
    result has the shape of the input (same array lengths, same keys in the
    same order, same non-string leaves) and every string leaf of it is
    non-empty. *)
Theorem processJsonTemplate_shape (helper : string -> list string -> string) (now : Z)
  (json : jsv) (data : option nat) (st : gmap nat obj) (out : jsv) :
  plain_keys json = true ->
  fst (processJsonTemplate helper now json data st) = Ok out ->
  skeleton out = skeleton json /\ no_empty_string out = true.
Proof.
  revert st out.
  induction json as [| | b | z | s | xs IH | fs IH] using jsv_nested_ind;
    intros st out Hp H; cbn [processJsonTemplate] in H;
    try (injection H as <-; split; reflexivity).
  - destruct (processTemplate helper now (JStr s) data st) as [[r|e] s'] eqn:E;
      cbn in H; [|discriminate].
    injection H as <-. split; [reflexivity|].
    cbn. apply negb_true_iff. apply String.eqb_neq.
    apply (processTemplate_ok_nonempty helper now (JStr s) data st). rewrite E. reflexivity.
  - destruct (map_st (fun x st => processJsonTemplate helper now x data st) xs st)
      as [[ys|e] s'] eqn:E; cbn in H; [|discriminate].
    injection H as <-. apply map_st_ok in E. cbn in Hp |- *.
    assert (G : List.map skeleton ys = List.map skeleton xs
                /\ forallb no_empty_string ys = true).
    { clear s'. induction E as [|x y xs' ys' [s1 [s2 Exy]] _ IHE]; [split; reflexivity|].
      apply andb_prop in Hp as [Hx Hxs]. inversion IH as [|? ? IHx IHxs]; subst.
      destruct (IHx s1 y Hx) as [G1 G2]; [rewrite Exy; reflexivity|].
      destruct (IHE IHxs Hxs) as [G3 G4].
      cbn. rewrite G1, G3, G2, G4. split; reflexivity. }
    destruct G as [G1 G2]. rewrite G1, G2. split; reflexivity.
  - destruct (assign_entries (fun x st => processJsonTemplate helper now x data st) fs [] st)
      as [[o|e] s'] eqn:E; cbn in H; [|discriminate].
    injection H as <-. cbn in Hp. apply andb_prop in Hp as [Hp Hp3].
    apply andb_prop in Hp as [Hu Hp2].
    destruct (assign_entries_ok _ fs Hu Hp2 [] st o s' (fun _ _ H => H) E) as [fs' [-> Hf]].
    cbn [app].
    assert (G : List.map (fun '(k, x) => (k, skeleton x)) fs'
                = List.map (fun '(k, x) => (k, skeleton x)) fs
                /\ forallb (fun kv => no_empty_string (snd kv)) fs' = true).
    { clear E s' Hu Hp2. induction Hf as [|[k x] [k' y] fs1 fs2 [Hk [s1 [s2 Exy]]] _ IHf];
        [split; reflexivity|].
      cbn in Hk, Exy, Hp3. subst k'. apply andb_prop in Hp3 as [Hx Hxs].
      inversion IH as [|? ? IHx IHxs]; subst.
      destruct (IHx s1 y Hx) as [G1 G2]; [cbn in Exy |- *; rewrite Exy; reflexivity|].
      destruct (IHf IHxs Hxs) as [G3 G4].
      cbn. rewrite G1, G3, G2, G4. split; reflexivity. }
    destruct G as [G1 G2]. cbn. rewrite G1, G2. split; reflexivity.
Qed.

Lemma processJsonTemplate_shape_witness :
  plain_keys (JObj [("id", JStr "{{id}}"); ("n", JNum 3)]) = true
  /\ skeleton (JObj [("id", JStr "7"); ("n", JNum 3)])
     = skeleton (JObj [("id", JStr "{{id}}"); ("n", JNum 3)])
  /\ no_empty_string (JObj [("id", JStr "7"); ("n", JNum 3)]) = true.
Proof.
  assert (Hp : plain_keys (JObj [("id", JStr "{{id}}"); ("n", JNum 3)]) = true) by reflexivity.
  assert (Hr : fst (processJsonTemplate fixed_helper 0 (JObj [("id", JStr "{{id}}"); ("n", JNum 3)])
                      (Some 0%nat) (fresh [("id", JStr "7")]))
               = Ok (JObj [("id", JStr "7"); ("n", JNum 3)])) by (vm_compute; reflexivity).
  split; [exact Hp|].
  exact (processJsonTemplate_shape _ _ _ _ _ _ Hp Hr).
Defined.

(** ** Request pipeline *)

Lemma has_header_set_same (hs : list (string * string)) (n v : string) :
  has_header (set_header hs n v) n = true.
Proof.
  induction hs as [|[n' w] r IH]; cbn.
  - rewrite String.eqb_refl. reflexivity.
  - destruct (String.eqb (lower n') (lower n)); cbn.
    + rewrite String.eqb_refl. reflexivity.
    + unfold has_header in IH. rewrite IH. apply orb_true_r.
Qed.

Lemma has_header_set_other (hs : list (string * string)) (n v m : string) :
  has_header hs m = true -> has_header (set_header hs n v) m = true.
Proof.
  induction hs as [|[n' w] r IH]; cbn; [discriminate|].
  intros H. apply orb_true_iff in H as [H|H].
  - destruct (String.eqb (lower n') (lower n)) eqn:E; cbn.
    + apply String.eqb_eq in E, H. rewrite <- E, H, String.eqb_refl. reflexivity.
    + rewrite H. reflexivity.
  - destruct (String.eqb (lower n') (lower n)); cbn.
    + rewrite H. apply orb_true_r.
    + unfold has_header in IH. rewrite (IH H). apply orb_true_r.
Qed.

Lemma fold_left_map' {A B C} (f : A -> B -> A) (g : C -> B) (l : list C) (a : A) :
  fold_left f (map g l) a = fold_left (fun a x => f a (g x)) l a.
Proof. revert a. induction l as [|x r IH]; intros a; cbn; [reflexivity|apply IH]. Qed.

Section Pipeline.

Variable helper : string -> list string -> string.
Variable now : Z.
Variable path_match : jsv -> string -> result (option obj).
Variable final_handler : jserr -> response -> response.

Lemma route_headers_keep (m : string) :
  forall (hs : list (string * jsv)) (req : request) (res : response)
         (errs : nat) (ev : list event),
    has_header (res_headers res) m = true ->
    has_header (res_headers (fst (fst (route_headers helper now hs req res errs ev)))) m = true.
Proof.
  induction hs as [|[header value] r IH]; intros req res errs ev H; [exact H|].
  cbn [route_headers].
  destruct (res_set_rendered (fst (processTemplate helper now value (Some 0%nat)
                                   (fresh (templateData now req)))) res header)
    as [[v [_ Hs]]|[_ [e0 Hs]]]; rewrite Hs.
  - apply IH. apply has_header_set_other. exact H.
  - apply IH. exact H.
Qed.

Lemma apply_route_headers_keep (m : string) (route : jsv) (req : request)
  (res res' : response) (ev ev' : list event) :
  has_header (res_headers res) m = true ->
  apply_route_headers helper now route req res ev = (MNext res', ev') ->
  has_header (res_headers res') m = true.
Proof.
  intros H. unfold apply_route_headers.
  destruct (truthy (field route "headers")).
  - destruct (entries (field route "headers")) as [hs|e]; [|discriminate].
    pose proof (route_headers_keep m hs req res 0 ev H) as G.
    destruct (route_headers helper now hs req res 0 ev) as [[r errs] v].
    destruct (0 <? errs)%nat; [rewrite warning_set|]; intros E; injection E as <- _.
    + apply has_header_set_other. exact G.
    + exact G.
  - intros E. injection E as <- _. exact H.
Qed.

Lemma handle_route_keeps_header (m : string) (route : jsv) (req : request) (res : response) :
  has_header (res_headers res) m = true ->
  has_header (res_headers (fst (handle_route helper now route req res))) m = true.
Proof.
  intros H. unfold handle_route.
  set (ev0 := if truthy (field route "conditions") then [EvConditions] else []).
  destruct (apply_route_headers_spec helper now route req res ev0)
    as [res' [ev' [Ha _]]].
  pose proof (apply_route_headers_keep m route req res res' ev0 ev' H Ha) as H'.
  destruct (if truthy (field route "conditions")
            then checkConditions (field route "conditions") req else Ok true) as [[|]|].
  - rewrite Ha.
    destruct (truthy (field route "errorCode")).
    + destruct (js_to_int32 (field route "errorCode")) as [k|e];
        [destruct (valid_status k)|]; exact H'.
    + destruct (fst (processJsonTemplate helper now (field route "response") (Some 0%nat)
                       (fresh (templateData now req)))); exact H'.
  - destruct (truthy (field route "fallback")); exact H.
  - exact H.
Qed.

(** A route layer whose path matches without a decoding error either
    handles the request or is passed over. *)
Lemma dispatch_cons_cases (route : jsv) (rest : list jsv) (req : request)
  (res : response) (ev : list event) (o : option obj) :
  path_match (field route "path") (req_path req) = Ok o ->
  dispatch helper now path_match final_handler (route :: rest) req res ev
  = dispatch helper now path_match final_handler rest req res ev
  \/ exists req', fst (dispatch helper now path_match final_handler (route :: rest) req res ev)
                  = fst (handle_route helper now route req' res).
Proof.
  intros Ho. cbn [dispatch]. rewrite Ho.
  destruct o as [params|]; [|left; reflexivity].
  destruct (field route "method"); try (left; reflexivity).
  destruct (method_matches _ _); [|left; reflexivity].
  right. match goal with
         | |- context [handle_route ?h ?n ?r ?q ?s] =>
             exists q; destruct (handle_route h n r q s); reflexivity
         end.
Qed.

Lemma dispatch_keeps_header (m : string) (routes : list jsv) (req : request)
  (res : response) (ev : list event) :
  has_header (res_headers res) m = true ->
  (forall route, In route routes ->
     exists o, path_match (field route "path") (req_path req) = Ok o) ->
  has_header (res_headers (fst (dispatch helper now path_match final_handler routes req res ev)))
    m = true.
Proof.
  intros H. induction routes as [|route rest IH]; intros Hp; [exact H|].
  destruct (Hp route (or_introl eq_refl)) as [o Ho].
  destruct (dispatch_cons_cases route rest req res ev o Ho) as [E|[req' E]]; rewrite E.
  - apply IH. intros r Hr. apply Hp. right. exact Hr.
  - apply handle_route_keeps_header. exact H.
Qed.


(** The global headers middleware always passes the request on. *)
Lemma global_headers_next (config : jsv) (req : request) (res : response) :
  exists res' ev, global_headers helper now config req res = (MNext res', ev).
Proof.
  unfold global_headers.
  destruct (truthy (field config "globals") && truthy (field (field config "globals") "headers"))
    eqn:Ht; [|eauto].
  destruct (entries (field (field config "globals") "headers")) as [hs|e] eqn:He.
  - destruct (global_headers_loop helper now hs req res 0 []) as [[res' errs] ev].
    destruct (0 <? errs)%nat; [rewrite warning_set|]; eauto.
  - exfalso. apply andb_prop in Ht as [_ Ht].
    destruct (field (field config "globals") "headers"); discriminate.
Qed.

End Pipeline.

(** When the cors stage passes the request on, the server is not shutting
    down and every route path is matched without a decoding error, the
    response has the headers [X-Content-Type-Options], [X-Frame-Options]
    and [X-Powered-By], whichever route (or the 404 handler) answers. *)
Theorem app_handle_security_headers (helper : string -> list string -> string) (now : Z)
  (path_match : jsv -> string -> result (option obj))
  (final_handler : jserr -> response -> response)
  (state : server_state) (config : jsv) (req : request) (r : response) (name : string) :
  cors_stage path_match config req res_start = MNext r ->
  isShuttingDown state = false ->
  (forall route, In route (config_routes config) ->
     exists o, path_match (field route "path") (req_path req) = Ok o) ->
  In name ["X-Content-Type-Options"; "X-Frame-Options"; "X-Powered-By"] ->
  has_header (res_headers (fst (app_handle helper now path_match final_handler state config
                                  true req))) name = true.
Proof.
  intros Hc Hs Hp Hn. unfold app_handle. cbn [negb]. rewrite Hc, Hs.
  match goal with
  | |- context [global_headers helper now config ?q r] =>
      destruct (global_headers_next helper now config q r) as [res2 [ev E]]; rewrite E
  end.
  assert (S : forall res, security_headers res
              = MNext (with_header (with_header (with_header res "X-Content-Type-Options" "nosniff")
                         "X-Frame-Options" "DENY") "X-Powered-By" "Express Template Mock Server"))
    by reflexivity.
  rewrite S. apply dispatch_keeps_header; [|exact Hp].
  cbn [with_header res_headers].
  destruct Hn as [<-|[<-|[<-|[]]]].
  - apply has_header_set_other, has_header_set_other, has_header_set_same.
  - apply has_header_set_other, has_header_set_same.
  - apply has_header_set_same.
Qed.

Lemma app_handle_security_headers_witness :
  cors_stage literal_path_match (one_route_config headers_route)
    (sample_request "GET" "/nope" (JObj []) (JObj [])) res_start
  = MNext (with_header res_start "Access-Control-Allow-Origin" "*")
  /\ has_header (res_headers (fst (app_handle fixed_helper 0 literal_path_match
                                    sample_final_handler {| isShuttingDown := false |}
                                    (one_route_config headers_route) true
                                    (sample_request "GET" "/nope" (JObj []) (JObj [])))))
       "X-Frame-Options" = true.
Proof.
  assert (Hc : cors_stage literal_path_match (one_route_config headers_route)
                 (sample_request "GET" "/nope" (JObj []) (JObj [])) res_start
               = MNext (with_header res_start "Access-Control-Allow-Origin" "*"))
    by (vm_compute; reflexivity).
  split; [exact Hc|].
  apply (app_handle_security_headers fixed_helper 0 literal_path_match sample_final_handler
           {| isShuttingDown := false |} (one_route_config headers_route)
           (sample_request "GET" "/nope" (JObj []) (JObj [])) _ "X-Frame-Options" Hc).
  - reflexivity.
  - intros route [<-|[]]. eexists. reflexivity.
  - right; left; reflexivity.
Defined.








(** ** Template data, lifecycle and configuration loading *)

Lemma assoc_define (acc : obj) (k' : string) (v : jsv) (k : string) :
  assoc k (obj_define acc k' v) = if String.eqb k k' then Some v else assoc k acc.
Proof.
  induction acc as [|[k2 v2] r IH]; cbn.
  - destruct (String.eqb k k'); reflexivity.
  - destruct (String.eqb_spec k' k2) as [->|Hne]; cbn.
    + destruct (String.eqb k k2); reflexivity.
    + rewrite IH. destruct (String.eqb_spec k k2) as [->|Hk]; [|reflexivity].
      apply String.eqb_neq in Hne. rewrite String.eqb_sym, Hne. reflexivity.
Qed.

Lemma obj_get_define (acc : obj) (k' : string) (v : jsv) (k : string) :
  obj_get (obj_define acc k' v) k = if String.eqb k k' then v else obj_get acc k.
Proof. unfold obj_get. rewrite assoc_define. destruct (String.eqb k k'); reflexivity. Qed.

Lemma assoc_app {A} (k : string) (l1 l2 : list (string * A)) :
  assoc k (app l1 l2) = match assoc k l1 with Some v => Some v | None => assoc k l2 end.
Proof.
  induction l1 as [|[k' v] r IH]; cbn; [reflexivity|].
  destruct (String.eqb k k'); [reflexivity|exact IH].
Qed.

Lemma obj_get_fold (fs : obj) (acc : obj) (k : string) :
  obj_get (fold_left (fun a kv => obj_define a (fst kv) (snd kv)) fs acc) k
  = match assoc k (rev fs) with Some v => v | None => obj_get acc k end.
Proof.
  revert acc. induction fs as [|[k' v] r IH]; intros acc; cbn [fold_left rev]; [reflexivity|].
  rewrite IH, assoc_app, obj_get_define. cbn [fst snd assoc].
  destruct (assoc k (rev r)); [reflexivity|].
  destruct (String.eqb k k'); reflexivity.
Qed.

Lemma obj_get_spread (acc : obj) (v : jsv) (k : string) :
  obj_get (spread acc v) k
  = match assoc k (rev (spread_entries v)) with Some x => x | None => obj_get acc k end.
Proof.
  destruct v as [| | | | s | xs | fs]; try reflexivity; cbn [spread spread_entries entries].
  - rewrite <- (fold_left_map' (fun a kv => obj_define a (fst kv) (snd kv))
                  (fun p => (fst p, JStr (snd p)))).
    apply obj_get_fold.
  - apply obj_get_fold.
  - apply obj_get_fold.
Qed.

(** The data a route's templates see: [responseTime] and [startTime] come
    from the request's clock; any other name is looked up among the own
    entries of the request body, then of the query, then of the path
    parameters (the last occurrence within each; array indices and string
    characters count as entries), and is [undefined] when none has it. *)
Theorem templateData_lookup (now : Z) (req : request) (k : string) :
  obj_get (templateData now req) k
  = if String.eqb k "responseTime" then JNum (now - req_startTime req)
    else if String.eqb k "startTime" then JNum (req_startTime req)
    else match assoc k (rev (spread_entries (req_body req))) with
         | Some v => v
         | None =>
             match assoc k (rev (spread_entries (req_query req))) with
             | Some v => v
             | None =>
                 match assoc k (rev (spread_entries (req_params req))) with
                 | Some v => v
                 | None => JUndef
                 end
             end
         end.
Proof.
  unfold templateData. rewrite !obj_get_define, !obj_get_spread. reflexivity.
Qed.

(** gracefulShutdown runs once: the call sets the shutting-down flag, after
    which a second call changes nothing and schedules nothing, and every
    request whose body parses and which the cors stage passes on is refused
    with 503 "Server is shutting down". *)
Theorem gracefulShutdown_once (helper : string -> list string -> string) (now : Z)
  (path_match : jsv -> string -> result (option obj))
  (final_handler : jserr -> response -> response)
  (t1 t2 : nat) (s : lifecycle) (config : jsv) (req : request) :
  let s1 := fst (gracefulShutdown t1 s) in
  gracefulShutdown t2 s1 = (s1, [])
  /\ (forall r, cors_stage path_match config req res_start = MNext r ->
      app_handle helper now path_match final_handler (middleware_state s1) config true req
      = (res_json (res_status_set r (JNum 503)) (error_body "Server is shutting down"), [])).
Proof.
  cbn zeta.
  assert (H : ls_isShuttingDown (fst (gracefulShutdown t1 s)) = true).
  { unfold gracefulShutdown. destruct (ls_isShuttingDown s) eqn:E; [exact E|reflexivity]. }
  split.
  - unfold gracefulShutdown at 1. rewrite H. reflexivity.
  - intros r Hc. unfold app_handle. cbn [negb]. rewrite Hc. cbn [isShuttingDown middleware_state].
    rewrite H. reflexivity.
Qed.

Lemma gracefulShutdown_once_witness :
  cors_stage literal_path_match (one_route_config headers_route)
    (sample_request "GET" "/h" (JObj []) (JObj [])) res_start
  = MNext (with_header res_start "Access-Control-Allow-Origin" "*")
  /\ app_handle fixed_helper 0 literal_path_match sample_final_handler
       (middleware_state (fst (gracefulShutdown 1 createState)))
       (one_route_config headers_route) true (sample_request "GET" "/h" (JObj []) (JObj []))
     = (res_json (res_status_set (with_header res_start "Access-Control-Allow-Origin" "*")
                    (JNum 503)) (error_body "Server is shutting down"), []).
Proof.
  assert (Hc : cors_stage literal_path_match (one_route_config headers_route)
                 (sample_request "GET" "/h" (JObj []) (JObj [])) res_start
               = MNext (with_header res_start "Access-Control-Allow-Origin" "*"))
    by (vm_compute; reflexivity).
  split; [exact Hc|].
  exact (proj2 (gracefulShutdown_once fixed_helper 0 literal_path_match sample_final_handler
                  1 2 createState (one_route_config headers_route)
                  (sample_request "GET" "/h" (JObj []) (JObj []))) _ Hc).
Defined.

(** When the watcher and the server close without error, stopServer leaves
    the state exactly as createState makes it, after closing the watcher,
    then the server, then clearing the pending shutdown timeout, each only
    when present. *)
Theorem stopServer_resets (s : lifecycle) :
  stopServer (Ok tt) (Ok tt) s
  = (Ok tt, createState,
     app (opt_effect CloseWatcher (ls_watcher s))
       (app (opt_effect CloseServer (ls_server s))
          (opt_effect ClearTimeout (ls_shutdownTimeout s)))).
Proof.
  destruct s as [f t srv c w]. destruct w, srv, t; reflexivity.
Qed.

(** A failing close makes stopServer reject with that error, and it then
    leaves the shutting-down flag, the configuration and the pending
    shutdown timeout as they were, without clearing any timer. *)
Theorem stopServer_failure_keeps_state (wc sc : result unit) (s : lifecycle) (e : jserr) :
  fst (fst (stopServer wc sc s)) = Throw e ->
  (wc = Throw e \/ sc = Throw e)
  /\ ls_isShuttingDown (snd (fst (stopServer wc sc s))) = ls_isShuttingDown s
  /\ ls_config (snd (fst (stopServer wc sc s))) = ls_config s
  /\ ls_shutdownTimeout (snd (fst (stopServer wc sc s))) = ls_shutdownTimeout s
  /\ (forall t, ~ In (ClearTimeout t) (snd (stopServer wc sc s))).
Proof.
  destruct s as [f t srv c w].
  destruct w, srv, t, wc as [[]|e1], sc as [[]|e2]; cbn; intros H;
    try discriminate; injection H as <-;
    (split; [tauto|]); (split; [reflexivity|]); (split; [reflexivity|]);
    (split; [reflexivity|]); intros t0; cbn; intuition discriminate.
Qed.

Lemma stopServer_failure_keeps_state_witness :
  ls_isShuttingDown (snd (fst (stopServer (Throw (Error "EBUSY")) (Ok tt)
    {| ls_isShuttingDown := true; ls_shutdownTimeout := Some 3%nat; ls_server := Some 1%nat;
       ls_config := None; ls_watcher := Some 2%nat |}))) = true.
Proof.
  exact (proj1 (proj2 (stopServer_failure_keeps_state (Throw (Error "EBUSY")) (Ok tt)
    {| ls_isShuttingDown := true; ls_shutdownTimeout := Some 3%nat; ls_server := Some 1%nat;
       ls_config := None; ls_watcher := Some 2%nat |} (Error "EBUSY") eq_refl))).
Defined.

(** loadConfig returns a configuration exactly when the file reads, its
    content parses as JSON, and the parsed value passes validateConfig; the
    value returned is the parsed one. *)
Theorem loadConfig_ok_iff (readFile : string -> read_result)
  (json_parse : string -> result jsv) (configPath : string) (config : jsv) :
  loadConfig readFile json_parse configPath = Ok config
  <-> exists content, readFile configPath = ReadOk content
      /\ json_parse content = Ok config /\ validateConfig config = Ok tt.
Proof.
  unfold loadConfig. split.
  - destruct (readFile configPath) as [content|code e]; [|destruct (String.eqb code "ENOENT"); discriminate].
    destruct (json_parse content) as [c|e] eqn:Ep; cbn [rbind]; [|discriminate].
    destruct (validateConfig c) as [[]|e] eqn:Ev; cbn [rbind]; [|discriminate].
    intros H. injection H as <-. exists content. auto.
  - intros [content [Hr [Hp Hv]]]. rewrite Hr, Hp. cbn [rbind]. rewrite Hv. reflexivity.
Qed.

(** loadConfig fails in one of three ways: a missing file (ENOENT) gives
    "Config file not found: <path>"; any other read error is rethrown as
    it is; a file that reads but does not parse or does not pass validation
    gives "Invalid JSON in config file". *)
Theorem loadConfig_errors (readFile : string -> read_result)
  (json_parse : string -> result jsv) (configPath : string) (e : jserr) :
  loadConfig readFile json_parse configPath = Throw e ->
  (exists e0, readFile configPath = ReadErr "ENOENT" e0
              /\ e = Error ("Config file not found: " ++ configPath))
  \/ (exists code, code <> "ENOENT" /\ readFile configPath = ReadErr code e)
  \/ (exists content, readFile configPath = ReadOk content
      /\ (forall c, json_parse content = Ok c -> validateConfig c <> Ok tt)
      /\ e = Error "Invalid JSON in config file").
Proof.
  unfold loadConfig. destruct (readFile configPath) as [content|code e0].
  - intros H. right; right. exists content. split; [reflexivity|].
    destruct (json_parse content) as [c|e1] eqn:Ep; cbn [rbind] in H.
    + destruct (validateConfig c) as [[]|e2] eqn:Ev; cbn [rbind] in H; [discriminate|].
      injection H as <-. split; [|reflexivity].
      intros c' Hc. injection Hc as <-. rewrite Ev. discriminate.
    + injection H as <-. split; [|reflexivity]. intros c' Hc; discriminate.
  - destruct (String.eqb_spec code "ENOENT") as [->|Hne]; intros H; injection H as <-.
    + left. eexists. split; reflexivity.
    + right; left. exists code. split; [exact Hne|reflexivity].
Qed.

Lemma loadConfig_errors_witness :
  exists content,
    (fun _ : string => ReadOk "{}") "config.json" = ReadOk content
    /\ (forall c, (fun _ : string => Ok (JObj [])) content = Ok c -> validateConfig c <> Ok tt)
    /\ Error "Invalid JSON in config file" = Error "Invalid JSON in config file".
Proof.
  destruct (loadConfig_errors (fun _ => ReadOk "{}") (fun _ => Ok (JObj [])) "config.json"
              (Error "Invalid JSON in config file") eq_refl)
    as [[e0 [H _]]|[[code [_ H]]|H]]; [discriminate|discriminate|exact H].
Defined.
